(** * PDF comment extraction tool: a shallow embedding of [PyMuPDF.py]

    The development follows the three functions of the source file:
    [rgb_to_hex], [get_drawing_number] and the extraction loops of [main].
    Python values are modelled as the program uses them:
    - a [str] is a list of Unicode code points ([pystr]);
    - a [float] is an IEEE-754 binary64 value ([spec_float] with
      precision 53 and maximal exponent 1024);
    - an [int] is a [Z];
    - a raised exception is the [Raise] case of [result]. *)

From Stdlib Require Import ZArith NArith List Bool String Ascii Lia Sorted.
From Stdlib Require Import Floats.SpecFloat.
Import ListNotations.

Local Open Scope Z_scope.

(** ** Exceptions *)

Inductive exn : Type :=
| ValueError
| OverflowError
| IndexError.

Inductive result (A : Type) : Type :=
| Ok (a : A)
| Raise (e : exn).

Arguments Ok {A} a.
Arguments Raise {A} e.

Definition bind {A B : Type} (r : result A) (k : A -> result B) : result B :=
  match r with
  | Ok a => k a
  | Raise e => Raise e
  end.

Notation "x <- r ;; k" := (bind r (fun x => k))
  (at level 61, r at next level, right associativity).

(** [[f(x) for x in xs]]: evaluation left to right, the first exception
    aborts the comprehension. *)
Fixpoint list_comprehension {A B : Type} (f : A -> result B) (xs : list A)
  : result (list B) :=
  match xs with
  | [] => Ok []
  | x :: xs' =>
      y <- f x ;;
      ys <- list_comprehension f xs' ;;
      Ok (y :: ys)
  end.

(** ** Python strings *)

Module PyStr.

Definition codepoint := N.
Definition pystr := list codepoint.

(** Decoding of the UTF-8 bytes of a literal of the source file. *)
Fixpoint utf8_decode (bs : list N) : pystr :=
  match bs with
  | [] => []
  | b0 :: r0 =>
      if (b0 <? 0x80)%N then b0 :: utf8_decode r0
      else if (b0 <? 0xE0)%N then
        match r0 with
        | b1 :: r1 =>
            N.lor (N.shiftl (N.land b0 0x1F) 6) (N.land b1 0x3F)
            :: utf8_decode r1
        | _ => []
        end
      else if (b0 <? 0xF0)%N then
        match r0 with
        | b1 :: b2 :: r2 =>
            N.lor (N.shiftl (N.land b0 0x0F) 12)
              (N.lor (N.shiftl (N.land b1 0x3F) 6) (N.land b2 0x3F))
            :: utf8_decode r2
        | _ => []
        end
      else
        match r0 with
        | b1 :: b2 :: b3 :: r3 =>
            N.lor (N.shiftl (N.land b0 0x07) 18)
              (N.lor (N.shiftl (N.land b1 0x3F) 12)
                 (N.lor (N.shiftl (N.land b2 0x3F) 6) (N.land b3 0x3F)))
            :: utf8_decode r3
        | _ => []
        end
  end.

Definition lit (s : string) : pystr :=
  utf8_decode (map N_of_ascii (list_ascii_of_string s)).

Definition eqb (a b : pystr) : bool :=
  if list_eq_dec N.eq_dec a b then true else false.

(** Truth value of a string: [not s] holds for the empty string only. *)
Definition is_empty (s : pystr) : bool :=
  match s with
  | [] => true
  | _ :: _ => false
  end.

(** [str.isspace] on one code point: the table of CPython's
    [_PyUnicode_IsWhitespace]. *)
Definition isspace (c : codepoint) : bool :=
  ((0x09 <=? c) && (c <=? 0x0D)
   || (0x1C <=? c) && (c <=? 0x20)
   || (c =? 0x85) || (c =? 0xA0) || (c =? 0x1680)
   || (0x2000 <=? c) && (c <=? 0x200A)
   || (c =? 0x2028) || (c =? 0x2029) || (c =? 0x202F)
   || (c =? 0x205F) || (c =? 0x3000))%N.

Fixpoint lstrip (s : pystr) : pystr :=
  match s with
  | [] => []
  | c :: s' => if isspace c then lstrip s' else s
  end.

Definition rstrip (s : pystr) : pystr := rev (lstrip (rev s)).

(** [s.strip()] *)
Definition strip (s : pystr) : pystr := rstrip (lstrip s).

(** [s.upper()].  The case mapping is written out for ASCII; the other
    code points this program puts through [upper] are the kanji and kana
    of the "not specified" label, which have no case. *)
Definition upper_char (c : codepoint) : codepoint :=
  if ((0x61 <=? c) && (c <=? 0x7A))%N then (c - 0x20)%N else c.

Definition upper (s : pystr) : pystr := map upper_char s.

(** [s.replace(old, new)] for a pattern [old] of one character. *)
Fixpoint replace (old : codepoint) (new : pystr) (s : pystr) : pystr :=
  match s with
  | [] => []
  | c :: s' =>
      if (c =? old)%N then new ++ replace old new s'
      else c :: replace old new s'
  end.

(** [sep.join(parts)] *)
Fixpoint join (sep : pystr) (parts : list pystr) : pystr :=
  match parts with
  | [] => []
  | [p] => p
  | p :: ps => p ++ sep ++ join sep ps
  end.

Definition newline : codepoint := 0x0A%N.

End PyStr.

Import PyStr.

(** ** Python floats (binary64) and ints *)

Module PyFloat.

Definition float := spec_float.

Definition prec : Z := 53.
Definition emax : Z := 1024.

Definition mul : float -> float -> float := SFmul prec emax.
Definition ltb : float -> float -> bool := SFltb.
Definition eqb : float -> float -> bool := SFeqb.
Definition leb : float -> float -> bool := SFleb.

(** Conversion of an [int] operand of a mixed [float * int] product. *)
Definition of_int (n : Z) : float := binary_normalize prec emax n 0 false.

(** The literals of the source, [255] and [0.5], and the ends [0.0] and
    [1.0] of the channel range. *)
Definition f255 : float := Eval vm_compute in of_int 255.
Definition fhalf : float := S754_finite false 4503599627370496 (-53).
Definition fzero : float := S754_zero false.
Definition fone : float := Eval vm_compute in of_int 1.

(** [int(x)]: truncation toward zero; NaN raises [ValueError], an
    infinity raises [OverflowError]. *)
Definition to_int (x : float) : result Z :=
  match x with
  | S754_zero _ => Ok 0
  | S754_nan => Raise ValueError
  | S754_infinity _ => Raise OverflowError
  | S754_finite s m e =>
      let a := match e with
               | Z0 => Zpos m
               | Zpos _ => Zpos m * 2 ^ e
               | Zneg _ => Zpos m / 2 ^ (- e)
               end in
      Ok (if s then - a else a)
  end.

Definition is_nan (x : float) : bool :=
  match x with
  | S754_nan => true
  | _ => false
  end.

End PyFloat.

Import PyFloat.

(** ** [format] with the specification [:02x] *)

Definition hex_digit (d : Z) : codepoint :=
  if d <? 10 then Z.to_N (48 + d) else Z.to_N (87 + d).

Fixpoint hex_digits (fuel : nat) (n : Z) : pystr :=
  match fuel with
  | O => []
  | S fuel' =>
      if n <? 16 then [hex_digit n]
      else hex_digits fuel' (n / 16) ++ [hex_digit (n mod 16)]
  end.

(** Lowercase hexadecimal digits of a natural number, most significant
    first; the fuel exceeds the number of digits. *)
Definition to_hex (n : Z) : pystr :=
  hex_digits (S (Z.to_nat (Z.log2 n))) n.

Definition zero_pad (width : nat) (s : pystr) : pystr :=
  repeat 0x30%N (width - List.length s) ++ s.

(** ['{:02x}'.format(n)]: sign first, then zeros up to a total width of 2. *)
Definition format_02x (n : Z) : pystr :=
  if n <? 0 then 0x2D%N :: zero_pad 1 (to_hex (- n))
  else zero_pad 2 (to_hex n).

(** ** Data model *)

(** A Python [dict] with literal keys, read with [get]. *)
Definition dict (V : Type) : Type := list (string * V).

Fixpoint dict_get {V : Type} (d : dict V) (k : string) : option V :=
  match d with
  | [] => None
  | (k', v) :: d' => if String.eqb k' k then Some v else dict_get d' k
  end.

Definition dict_get_default {V : Type} (d : dict V) (k : string) (dflt : V) : V :=
  match dict_get d k with
  | Some v => v
  | None => dflt
  end.

(** A colour as the PDF library hands it over: a tuple or a list of floats. *)
Inductive seq_kind : Type :=
| PyTuple
| PyList.

Record pyseq : Type := mk_pyseq {
  seq_kind_of : seq_kind;
  seq_items : list float
}.

(** A text block of [page.get_text("blocks")]: the tuple
    [(x0, y0, x1, y1, text, block_no, block_type)], so that [b[2]] is
    [blk_x1], [b[3]] is [blk_y1] and [b[4]] is [blk_text]. *)
Record Block : Type := mk_block {
  blk_x0 : float;
  blk_y0 : float;
  blk_x1 : float;
  blk_y1 : float;
  blk_text : pystr;
  blk_no : Z;
  blk_type : Z
}.

(** [fitz.Rect(x0, y0, x1, y1)] *)
Record Rect : Type := mk_rect {
  rect_x0 : float;
  rect_y0 : float;
  rect_x1 : float;
  rect_y1 : float
}.

(** The dictionary appended to [candidates]. *)
Record Candidate : Type := mk_candidate {
  cand_text : pystr;
  cand_y1 : float;
  cand_x1 : float
}.

Record Annot : Type := mk_annot {
  annot_info : dict pystr;
  annot_colors : dict pyseq
}.

(** A page of the document: its rectangle, the text extraction restricted
    to a clip rectangle, and its annotations in the library's order. *)
Record Page : Type := mk_page {
  page_width : float;
  page_height : float;
  page_get_text_blocks : Rect -> list Block;
  page_annots : list Annot
}.

(** The dictionary appended to [extracted_data]; the fields are, in order,
    the page, the drawing number, the comment, the author, the
    modification date, the colour name and the colour code. *)
Record Row : Type := mk_row {
  row_page : Z;
  row_drawing_no : pystr;
  row_content : pystr;
  row_author : pystr;
  row_mod_date : pystr;
  row_color_name : pystr;
  row_color_hex : pystr
}.

(** ** [list.sort(key=..., reverse=True)]

    The sort is stable and compares keys with [<] only.  With
    [reverse=True] the list is reversed, sorted in ascending order and
    reversed again, which keeps elements of equal keys in their original
    order. *)

Section Sort.
Context {A K : Type}.
Variable key : A -> K.
Variable lt : K -> K -> bool.

Fixpoint insert (x : A) (s : list A) : list A :=
  match s with
  | [] => [x]
  | y :: s' => if lt (key y) (key x) then y :: insert x s' else x :: s
  end.

Definition stable_sort (l : list A) : list A := fold_right insert [] l.

Definition sort_reverse (l : list A) : list A := rev (stable_sort (rev l)).

(** The element a sort leaves last, read off the unsorted list: the first
    element that every element after it is strictly below. *)
Fixpoint last_winner (l : list A) : option A :=
  match l with
  | [] => None
  | x :: l' =>
      if forallb (fun y => lt (key y) (key x)) l' then Some x
      else last_winner l'
  end.
End Sort.

(** Comparison [<] of the key tuples [(y1, x1)]: the first pair of
    components that are not [==] decides. *)
Definition key_lt (k k' : float * float) : bool :=
  if negb (PyFloat.eqb (fst k) (fst k')) then PyFloat.ltb (fst k) (fst k')
  else if negb (PyFloat.eqb (snd k) (snd k')) then PyFloat.ltb (snd k) (snd k')
  else false.

Definition cand_key (x : Candidate) : float * float := (cand_y1 x, cand_x1 x).

(** ** Loops *)

(** [for x in xs: s = body(s, x)], where the body may raise. *)
Fixpoint for_each {S A : Type} (body : S -> A -> result S) (xs : list A) (s : S)
  : result S :=
  match xs with
  | [] => Ok s
  | x :: xs' => s' <- body s x ;; for_each body xs' s'
  end.

Fixpoint enumerate_from {A : Type} (i : Z) (xs : list A) : list (Z * A) :=
  match xs with
  | [] => []
  | x :: xs' => (i, x) :: enumerate_from (i + 1) xs'
  end.

Definition enumerate {A : Type} (xs : list A) : list (Z * A) :=
  enumerate_from 0 xs.

(** ** The program *)

Definition not_specified : pystr := Eval vm_compute in lit "指定なし".
Definition unreadable : pystr := Eval vm_compute in lit "(読取不可)".

Section Program.

(** [repr] of a float, the shortest decimal string that reads back to the
    same value; it only occurs inside the fallback [str(color_tuple)]. *)
Variable float_repr : float -> pystr.

(** [str(color_tuple)] for a tuple or a list of floats. *)
Definition str_of_seq (sq : pyseq) : pystr :=
  let items := map float_repr (seq_items sq) in
  match seq_kind_of sq with
  | PyList => lit "[" ++ join (lit ", ") items ++ lit "]"
  | PyTuple =>
      match items with
      | [x] => lit "(" ++ x ++ lit ",)"
      | _ => lit "(" ++ join (lit ", ") items ++ lit ")"
      end
  end.

Definition rgb_to_hex (color_tuple : option pyseq) : result pystr :=
  match color_tuple with
  | None => Ok not_specified
  | Some sq =>
      match seq_items sq with
      | [] => Ok not_specified
      | _ :: _ =>
          rgb <- list_comprehension (fun c => to_int (mul c f255)) (seq_items sq) ;;
          match rgb with
          | [r; g; b] =>
              Ok (lit "#" ++ format_02x r ++ format_02x g ++ format_02x b)
          | [val] =>
              Ok (lit "#" ++ format_02x val ++ format_02x val ++ format_02x val)
          | _ => Ok (str_of_seq sq)
          end
      end
  end.

(** The loop that fills [candidates]. *)
Definition candidate_step (candidates : list Candidate) (b : Block)
  : list Candidate :=
  let text := strip (blk_text b) in
  if is_empty text then candidates
  else candidates ++ [mk_candidate text (blk_y1 b) (blk_x1 b)].

Definition collect_candidates (blocks : list Block) : list Candidate :=
  fold_left candidate_step blocks [].

(** [xs[0]] *)
Definition first_item {A : Type} (xs : list A) : result A :=
  match xs with
  | x :: _ => Ok x
  | [] => Raise IndexError
  end.

(** The body of [get_drawing_number] once the blocks are read. *)
Definition select_drawing_number (blocks : list Block) : result pystr :=
  match blocks with
  | [] => Ok unreadable
  | _ :: _ =>
      let candidates := collect_candidates blocks in
      match candidates with
      | [] => Ok unreadable
      | _ :: _ =>
          let candidates := sort_reverse cand_key key_lt candidates in
          best <- first_item candidates ;;
          let best_candidate := cand_text best in
          Ok (replace newline [] best_candidate)
      end
  end.

Definition get_drawing_number (page : Page) (width height : float)
  : result pystr :=
  let clip_rect := mk_rect (mul width fhalf) (mul height fhalf) width height in
  let blocks := page_get_text_blocks page clip_rect in
  select_drawing_number blocks.

Definition color_name_of (color_hex : pystr) : pystr :=
  if PyStr.eqb (upper color_hex) (lit "#FF0000") then lit "赤"
  else if PyStr.eqb (upper color_hex) (lit "#0000FF") then lit "青"
  else if PyStr.eqb (upper color_hex) (lit "#000000") then lit "黒"
  else lit "その他".

(** The body of [for annot in annots]; [i] is the 0-based page index. *)
Definition annot_step (i : Z) (drawing_no : pystr)
    (extracted_data : list Row) (annot : Annot) : result (list Row) :=
  match dict_get (annot_info annot) "content" with
  | None => Ok extracted_data
  | Some content =>
      if is_empty content then Ok extracted_data
      else
        let stroke_color := dict_get (annot_colors annot) "stroke" in
        color_hex <- rgb_to_hex stroke_color ;;
        let color_name := color_name_of color_hex in
        Ok (extracted_data ++
              [mk_row (i + 1) drawing_no content
                 (dict_get_default (annot_info annot) "title" [])
                 (dict_get_default (annot_info annot) "modDate" [])
                 color_name color_hex])
  end.

(** The body of [for i, page in enumerate(doc)].  The progress bar is
    display only and left out; [page.annots()] is a generator, which is
    always true, so the annotation loop always runs, over the annotations
    in the order of the library. *)
Definition page_step (extracted_data : list Row) (ip : Z * Page)
  : result (list Row) :=
  let '(i, page) := ip in
  let width := page_width page in
  let height := page_height page in
  drawing_no <- get_drawing_number page width height ;;
  for_each (annot_step i drawing_no) (page_annots page) extracted_data.

(** [extracted_data] at the end of the page loop of [main]. *)
Definition main_extract (doc : list Page) : result (list Row) :=
  for_each page_step (enumerate doc) [].

End Program.

(** ** Notions of the specification *)

(** A block survives the candidate loop when its trimmed text is not empty. *)
Definition nonblank (b : Block) : bool := negb (is_empty (strip (blk_text b))).

Definition candidate_of (b : Block) : Candidate :=
  mk_candidate (strip (blk_text b)) (blk_y1 b) (blk_x1 b).

(** The composite key (bottom, right) of a block. *)
Definition block_key (b : Block) : float * float := (blk_y1 b, blk_x1 b).

(** Coordinates are numbers: no component of a key is NaN. *)
Definition key_ok (k : float * float) : Prop :=
  is_nan (fst k) = false /\ is_nan (snd k) = false.

(** Two keys are numerically the same pair. *)
Definition key_same (k k' : float * float) : bool :=
  PyFloat.eqb (fst k) (fst k') && PyFloat.eqb (snd k) (snd k').

(** The text returned for a winning block. *)
Definition text_of_winner (b : Block) : pystr :=
  filter (fun c => negb (c =? newline)%N) (strip (blk_text b)).

Definition whitespace_only (s : pystr) : bool := forallb isspace s.

(** The content test of the loop of [main]: present and not empty. *)
Definition has_content (a : Annot) : bool :=
  match dict_get (annot_info a) "content" with
  | Some c => negb (is_empty c)
  | None => false
  end.

(** The content test as the specification words it: present, not empty and
    not made of whitespace only. *)
Definition has_visible_content (a : Annot) : bool :=
  match dict_get (annot_info a) "content" with
  | Some c => negb (is_empty c) && negb (whitespace_only c)
  | None => false
  end.

(** A row was built from an annotation: the comment is the content
    verbatim, author and date default to the empty string. *)
Definition row_of_annot (a : Annot) (r : Row) : Prop :=
  dict_get (annot_info a) "content" = Some (row_content r)
  /\ row_author r = dict_get_default (annot_info a) "title" []
  /\ row_mod_date r = dict_get_default (annot_info a) "modDate" [].

(** Colour names of the specification and the labels the program prints. *)
Inductive ColorName : Type :=
| Red
| Blue
| Black
| Other.

Definition color_label (n : ColorName) : pystr :=
  match n with
  | Red => lit "赤"
  | Blue => lit "青"
  | Black => lit "黒"
  | Other => lit "その他"
  end.

Definition color_table : list (pystr * ColorName) :=
  [(lit "#FF0000", Red); (lit "#0000FF", Blue); (lit "#000000", Black)].

Definition is_ascii_upper (c : codepoint) : bool := ((0x41 <=? c) && (c <=? 0x5A))%N.
Definition is_ascii_lower (c : codepoint) : bool := ((0x61 <=? c) && (c <=? 0x7A))%N.

(** Two characters are the same up to the case of a letter. *)
Definition char_ci_eqb (c d : codepoint) : bool :=
  ((c =? d)
   || is_ascii_upper c && (d =? c + 0x20)
   || is_ascii_lower c && (c =? d + 0x20))%N.

(** Case-insensitive exact match of two strings. *)
Fixpoint ci_eqb (a b : pystr) : bool :=
  match a, b with
  | [], [] => true
  | c :: a', d :: b' => char_ci_eqb c d && ci_eqb a' b'
  | _, _ => false
  end.

Fixpoint classify_in (table : list (pystr * ColorName)) (hex : pystr) : ColorName :=
  match table with
  | [] => Other
  | (h, n) :: table' => if ci_eqb hex h then n else classify_in table' hex
  end.

Definition classify (hex : pystr) : ColorName := classify_in color_table hex.

Definition is_hex_digit (c : codepoint) : bool :=
  ((0x30 <=? c) && (c <=? 0x39)
   || (0x61 <=? c) && (c <=? 0x66)
   || (0x41 <=? c) && (c <=? 0x46))%N.

Definition is_lower_hex_digit (c : codepoint) : bool :=
  ((0x30 <=? c) && (c <=? 0x39) || (0x61 <=? c) && (c <=? 0x66))%N.

(** A hex colour code: [#] and six hexadecimal digits. *)
Definition is_hex_code (s : pystr) : bool :=
  match s with
  | h :: ds => (h =? 0x23)%N && (List.length ds =? 6)%nat && forallb is_hex_digit ds
  | [] => false
  end.

Definition is_lower_hex_code (s : pystr) : bool :=
  match s with
  | h :: ds =>
      (h =? 0x23)%N && (List.length ds =? 6)%nat && forallb is_lower_hex_digit ds
  | [] => false
  end.

(** A channel value is a binary64 number of the interval [0, 1]. *)
Definition in_unit_interval (c : float) : Prop :=
  valid_binary prec emax c = true
  /\ PyFloat.leb fzero c = true
  /\ PyFloat.leb c fone = true.

(** The place of a float that is not NaN in the order of [<]: its class
    (negative infinity, negative, zero, positive, positive infinity), then
    its exponent and its mantissa, both negated below zero. *)
Definition rank_class (x : float) : Z :=
  match x with
  | S754_infinity true => -2
  | S754_finite true _ _ => -1
  | S754_finite false _ _ => 1
  | S754_infinity false => 2
  | _ => 0
  end.

Definition rank_exp (x : float) : Z :=
  match x with
  | S754_finite true _ e => - e
  | S754_finite false _ e => e
  | _ => 0
  end.

Definition rank_man (x : float) : Z :=
  match x with
  | S754_finite true m _ => Zneg m
  | S754_finite false m _ => Zpos m
  | _ => 0
  end.

Definition rank_lt (x y : float) : Prop :=
  rank_class x < rank_class y
  \/ (rank_class x = rank_class y
      /\ (rank_exp x < rank_exp y
          \/ (rank_exp x = rank_exp y /\ rank_man x < rank_man y))).

Definition rank_eq (x y : float) : Prop :=
  rank_class x = rank_class y /\ rank_exp x = rank_exp y /\ rank_man x = rank_man y.

(** ** Sample data *)

Definition blk_title : Block :=
  mk_block (of_int 400) (of_int 700) (of_int 500) (of_int 720) (lit "A-101") 0 0.

(** Higher on the page than [blk_title], but farther right. *)
Definition blk_scale : Block :=
  mk_block (of_int 450) (of_int 600) (of_int 580) (of_int 650) (lit "Scale 1:100") 1 0.

(** On the line of [blk_title], to its left. *)
Definition blk_left : Block :=
  mk_block (of_int 300) (of_int 700) (of_int 400) (of_int 720) (lit "S-1") 2 0.

(** The same bottom and right edges as [blk_title]. *)
Definition blk_twin : Block :=
  mk_block (of_int 420) (of_int 705) (of_int 500) (of_int 720) (lit "A-102") 3 0.

Definition blk_blank : Block :=
  mk_block (of_int 400) (of_int 730) (of_int 600) (of_int 740) (lit "  ") 4 0.

(** A block whose text reads as the "unreadable" label does. *)
Definition blk_label : Block :=
  mk_block (of_int 400) (of_int 700) (of_int 500) (of_int 720) unreadable 5 0.

(** A mantissa and an exponent at most -45 that denote a number of the
    interval [0, 255], and one strictly below 255. *)
Definition at_most_255 (m e : Z) : Prop :=
  0 <= m /\ e <= -45 /\ m <= 255 * 2 ^ (- e).

Definition below_255 (m e : Z) : Prop :=
  0 <= m /\ e <= -45 /\ m < 255 * 2 ^ (- e).

(** ['{:02x}'.format(n)] is two lowercase hexadecimal digits. *)
Definition byte_format_ok (n : Z) : bool :=
  match format_02x n with
  | [d1; d2] => is_lower_hex_digit d1 && is_lower_hex_digit d2
  | _ => false
  end.

(** ** The annotation loop and the page loop, as the specification sees them *)

(** [annot.colors.get("stroke")] *)
Definition stroke_of (a : Annot) : option pyseq := dict_get (annot_colors a) "stroke".

(** The annotation loop on the annotations of one page, from an empty
    result: the normalizer of the specification. *)
Definition normalize (float_repr : float -> pystr) (i : Z) (drawing_no : pystr)
    (annots : list Annot) : result (list Row) :=
  for_each (annot_step float_repr i drawing_no) annots [].

(** Row [r] is the row built for annotation [a] on the page of 0-based
    index [i] and drawing number [drawing_no]. *)
Definition row_built (float_repr : float -> pystr) (i : Z) (drawing_no : pystr)
    (a : Annot) (r : Row) : Prop :=
  row_page r = i + 1
  /\ row_drawing_no r = drawing_no
  /\ row_of_annot a r
  /\ rgb_to_hex float_repr (stroke_of a) = Ok (row_color_hex r)
  /\ row_color_name r = color_name_of (row_color_hex r).

(** The annotations with content, in page order and, within a page, in the
    order of the page, each with the 0-based index of its page. *)
Definition surviving (doc : list Page) : list (Z * Page * Annot) :=
  flat_map (fun ip : Z * Page =>
              map (fun a => (fst ip, snd ip, a))
                (filter has_content (page_annots (snd ip))))
    (enumerate doc).

(** Row [r] is the row of annotation [a] of page [p], stamped with the
    1-based index of [p] and the drawing number selected on [p]. *)
Definition row_from (float_repr : float -> pystr) (ipa : Z * Page * Annot) (r : Row)
  : Prop :=
  let '(i, p, a) := ipa in
  exists drawing_no,
    get_drawing_number p (page_width p) (page_height p) = Ok drawing_no
    /\ row_built float_repr i drawing_no a r.

(** The stroke colours of the annotations with content are normalized. *)
Definition colors_normalized (annots : list Annot) : Prop :=
  forall a sq, In a annots -> has_content a = true -> stroke_of a = Some sq ->
    Forall in_unit_interval (seq_items sq).

Definition doc_colors_normalized (doc : list Page) : Prop :=
  forall p, In p doc -> colors_normalized (page_annots p).

(** Sample annotations and pages. *)
Definition annot_red : Annot :=
  mk_annot [("content"%string, lit "Fix wall"); ("title"%string, lit "Sato")]
    [("stroke"%string, mk_pyseq PyTuple [fone; fzero; fzero])].

Definition annot_plain : Annot :=
  mk_annot [("content"%string, lit "Check door")] [].

Definition annot_space : Annot :=
  mk_annot [("content"%string, lit " "); ("title"%string, lit "Sato")] [].

Definition annot_empty : Annot :=
  mk_annot [("content"%string, []); ("title"%string, lit "Sato")] [].

Definition page_one : Page :=
  mk_page (of_int 600) (of_int 800) (fun _ => [blk_title]) [annot_empty; annot_red].

Definition page_two : Page :=
  mk_page (of_int 600) (of_int 800) (fun _ => []) [annot_plain].

Definition sample_repr (x : float) : pystr := lit "0.5".

(** ** The rest of [main] *)

(** What [main] shows once the page loop is over: nothing without an
    upload, the table with its download button, or the warning that no
    comment was found. *)
Inductive Report : Type :=
| NoUpload
| CommentTable (rows : list Row) (file_name : pystr)
| NoCommentWarning.

(** [main] from the uploaded file on; the upload is the file name and the
    pages that the PDF library reads from its bytes. The data frame and
    the workbook hold the rows as they are. *)
Definition main (float_repr : float -> pystr) (uploaded_file : option (pystr * list Page))
  : result Report :=
  match uploaded_file with
  | None => Ok NoUpload
  | Some (name, doc) =>
      extracted_data <- main_extract float_repr doc ;;
      match extracted_data with
      | _ :: _ =>
          Ok (CommentTable extracted_data (lit "comment_list_" ++ name ++ lit ".xlsx"))
      | [] => Ok NoCommentWarning
      end
  end.

(** The page loop on pages numbered from [i0], from an empty result. *)
Definition rows_of_pages (float_repr : float -> pystr) (i0 : Z) (pages : list Page)
  : result (list Row) :=
  for_each (page_step float_repr) (enumerate_from i0 pages) [].

(** ** Reading a colour code back *)

Definition hex_digit_value (c : codepoint) : option Z :=
  if ((0x30 <=? c) && (c <=? 0x39))%N then Some (Z.of_N c - 48)
  else if ((0x61 <=? c) && (c <=? 0x66))%N then Some (Z.of_N c - 87)
  else if ((0x41 <=? c) && (c <=? 0x46))%N then Some (Z.of_N c - 55)
  else None.

Definition hex_pair_value (d1 d2 : codepoint) : option Z :=
  match hex_digit_value d1, hex_digit_value d2 with
  | Some h, Some l => Some (16 * h + l)
  | _, _ => None
  end.

(** The three bytes that a code [#rrggbb] spells. *)
Definition decode_hex_code (s : pystr) : option (Z * Z * Z) :=
  match s with
  | [h; r1; r2; g1; g2; b1; b2] =>
      if (h =? 0x23)%N then
        match hex_pair_value r1 r2, hex_pair_value g1 g2, hex_pair_value b1 b2 with
        | Some r, Some g, Some b => Some (r, g, b)
        | _, _, _ => None
        end
      else None
  | _ => None
  end.

(** [format_02x] and [hex_pair_value] agree on a byte. *)
Definition byte_round_trip (n : Z) : bool :=
  match format_02x n with
  | [d1; d2] =>
      match hex_pair_value d1 d2 with
      | Some v => v =? n
      | None => false
      end
  | _ => false
  end.

(** The float 2.0, a channel value out of range. *)
Definition ftwo : float := Eval vm_compute in of_int 2.

(** An annotation with content whose colour has a NaN channel, and one
    without content with the same colour. *)
Definition annot_nan : Annot :=
  mk_annot [("content"%string, lit "Move column")]
    [("stroke"%string, mk_pyseq PyTuple [fone; S754_nan; fzero])].

Definition annot_nan_silent : Annot :=
  mk_annot [("content"%string, [])]
    [("stroke"%string, mk_pyseq PyTuple [fone; S754_nan; fzero])].

(** * Properties *)

(** ** Strings *)

Lemma replace_newline_filter (s : pystr) :
  replace newline [] s = filter (fun c => negb (c =? newline)%N) s.
Proof.
  induction s as [|c s IH]; simpl; [reflexivity|].
  destruct (c =? newline)%N; simpl; now rewrite IH.
Qed.

Lemma replace_newline_free (s : pystr) : ~ In newline (replace newline [] s).
Proof.
  rewrite replace_newline_filter. intros H.
  apply filter_In in H. destruct H as [_ H].
  now rewrite N.eqb_refl in H.
Qed.

Lemma pystr_eqb_eq (a b : pystr) : PyStr.eqb a b = true <-> a = b.
Proof.
  unfold PyStr.eqb. destruct (list_eq_dec N.eq_dec a b); split; congruence.
Qed.

(** ** The candidate loop *)

Lemma collect_candidates_from (blocks : list Block) (acc : list Candidate) :
  fold_left candidate_step blocks acc
  = acc ++ map candidate_of (filter nonblank blocks).
Proof.
  revert acc. induction blocks as [|b blocks IH]; intros acc; simpl.
  - now rewrite app_nil_r.
  - rewrite IH. unfold candidate_step, nonblank.
    destruct (is_empty (strip (blk_text b))); simpl; [reflexivity|].
    now rewrite <- app_assoc.
Qed.

Lemma collect_candidates_filter (blocks : list Block) :
  collect_candidates blocks = map candidate_of (filter nonblank blocks).
Proof. apply collect_candidates_from. Qed.

(** ** The sort *)

Section SortFacts.
Context {A K : Type}.
Variable key : A -> K.
Variable lt : K -> K -> bool.

Local Abbreviation below x := (fun y => lt (key y) (key x)).
Local Abbreviation last_winner := (last_winner key lt).

Lemma forallb_insert (p : A -> bool) (x : A) (s : list A) :
  forallb p (insert key lt x s) = p x && forallb p s.
Proof.
  induction s as [|y s IH]; simpl; [reflexivity|].
  destruct (lt (key y) (key x)); simpl; [|reflexivity].
  rewrite IH. now destruct (p x), (p y).
Qed.

Lemma forallb_stable_sort (p : A -> bool) (l : list A) :
  forallb p (stable_sort key lt l) = forallb p l.
Proof.
  induction l as [|x l IH]; simpl; [reflexivity|].
  now rewrite forallb_insert, IH.
Qed.

Lemma insert_not_nil (x : A) (s : list A) : insert key lt x s <> [].
Proof. destruct s as [|y s]; simpl; [|destruct (lt (key y) (key x))]; discriminate. Qed.

Lemma last_insert (x d : A) (s : list A) :
  last (insert key lt x s) d
  = if forallb (below x) s then x else last s d.
Proof.
  induction s as [|y s IH]; [reflexivity|].
  cbn [insert forallb].
  destruct (lt (key y) (key x)) eqn:Hyx; cbn [andb].
  - change (last (y :: insert key lt x s) d) with
      (match insert key lt x s with [] => y | _ :: _ => last (insert key lt x s) d end).
    destruct (insert key lt x s) eqn:Hins; [now apply insert_not_nil in Hins|].
    rewrite IH. destruct (forallb (below x) s) eqn:Hall; [reflexivity|].
    destruct s; [discriminate Hall | reflexivity].
  - reflexivity.
Qed.

Lemma last_stable_sort (d : A) (l : list A) :
  last (stable_sort key lt l) d
  = match last_winner l with Some w => w | None => d end.
Proof.
  induction l as [|x l IH]; [reflexivity|].
  cbn [stable_sort fold_right last_winner].
  change (fold_right (insert key lt) [] l) with (stable_sort key lt l).
  rewrite last_insert, forallb_stable_sort.
  destruct (forallb (below x) l); [reflexivity | exact IH].
Qed.

Lemma stable_sort_nil_inv (l : list A) : stable_sort key lt l = [] -> l = [].
Proof.
  destruct l as [|x l]; [reflexivity|]. simpl. intros H.
  now apply insert_not_nil in H.
Qed.

Lemma hd_error_rev (s : list A) (d : A) :
  hd_error (rev s) = match s with [] => None | _ :: _ => Some (last s d) end.
Proof.
  destruct s as [|x s] using rev_ind; [reflexivity|].
  rewrite rev_app_distr, last_last. simpl.
  destruct s; reflexivity.
Qed.

Lemma last_winner_some (l : list A) : l <> [] -> exists w, last_winner l = Some w.
Proof.
  induction l as [|x l IH]; [congruence|]. intros _. simpl.
  destruct (forallb (below x) l) eqn:Hall; [eauto|].
  apply IH. intros ->. discriminate Hall.
Qed.

Lemma last_winner_In (l : list A) (w : A) : last_winner l = Some w -> In w l.
Proof.
  induction l as [|x l IH]; simpl; [discriminate|].
  destruct (forallb (below x) l); intros H.
  - left. congruence.
  - right. auto.
Qed.

(** The head of the descending sort is the winner of the reversed list. *)
Lemma hd_sort_reverse (l : list A) :
  hd_error (sort_reverse key lt l) = last_winner (rev l).
Proof.
  unfold sort_reverse.
  destruct (rev l) as [|x r] eqn:Hr; [reflexivity|].
  rewrite <- Hr.
  assert (Hne : rev l <> []) by (rewrite Hr; discriminate).
  destruct (last_winner_some _ Hne) as [w Hw].
  rewrite (hd_error_rev _ w), last_stable_sort, Hw.
  destruct (stable_sort key lt (rev l)) eqn:Hs; [|reflexivity].
  now apply stable_sort_nil_inv in Hs.
Qed.

(** The winner is the earliest element that no earlier element reaches
    and no later element exceeds. *)
Lemma hd_sort_reverse_earliest (pre post : list A) (x : A) :
  (forall c, In c pre -> lt (key c) (key x) = true) ->
  (forall c, In c post -> lt (key x) (key c) = false) ->
  hd_error (sort_reverse key lt (pre ++ x :: post)) = Some x.
Proof.
  intros Hpre Hpost. rewrite hd_sort_reverse, rev_app_distr. simpl.
  rewrite <- app_assoc. simpl.
  assert (Hpost' : forall c, In c (rev post) -> lt (key x) (key c) = false)
    by (intros c Hc; apply Hpost; now apply in_rev).
  clear Hpost. induction (rev post) as [|y r IH]; simpl.
  - replace (forallb (below x) (rev pre)) with true; [reflexivity|].
    symmetry. apply forallb_forall. intros c Hc. apply Hpre. now apply in_rev.
  - replace (forallb (below y) (r ++ x :: rev pre)) with false.
    + apply IH. intros c Hc. apply Hpost'. now right.
    + symmetry. apply not_true_is_false. intros Hall.
      rewrite forallb_forall in Hall.
      specialize (Hall x (in_elt x r (rev pre))). cbv beta in Hall.
      rewrite (Hpost' y (or_introl eq_refl)) in Hall. discriminate.
Qed.

(** On keys that [lt] orders, no element exceeds the winner. *)
Section Ordered.
Variable good : K -> Prop.
Hypothesis lt_irrefl : forall a, good a -> lt a a = false.
Hypothesis lt_asym : forall a b, good a -> good b -> lt a b = true -> lt b a = false.
Hypothesis lt_negtrans : forall a b c, good a -> good b -> good c ->
  lt a b = false -> lt b c = false -> lt a c = false.

Lemma last_winner_max (l : list A) (w : A) :
  Forall (fun x => good (key x)) l ->
  last_winner l = Some w ->
  forall c, In c l -> lt (key w) (key c) = false.
Proof.
  induction l as [|x l IH]; intros Hgood Hw c Hc; [destruct Hc|].
  inversion Hgood as [|? ? Hx Hl]; subst.
  rewrite Forall_forall in Hl.
  simpl in Hw. destruct (forallb (below x) l) eqn:Hall.
  - injection Hw as <-. destruct Hc as [<-|Hc]; [now apply lt_irrefl|].
    rewrite forallb_forall in Hall.
    apply lt_asym; auto; now apply Hall.
  - assert (Hwl : In w l) by now apply last_winner_In.
    assert (IH' := IH (proj2 (Forall_forall _ _) Hl) Hw).
    destruct Hc as [<-|Hc]; [|now apply IH'].
    assert (Hex : exists y, In y l /\ lt (key y) (key x) = false).
    { clear - Hall. induction l as [|y l IHl]; simpl in Hall; [discriminate|].
      destruct (lt (key y) (key x)) eqn:Hy.
      - destruct (IHl Hall) as [z [Hz1 Hz2]]. exists z. split; [now right | assumption].
      - exists y. split; [now left | assumption]. }
    destruct Hex as [y [Hy1 Hy2]].
    apply (lt_negtrans _ (key y)); auto.
Qed.

Lemma sort_reverse_max (l : list A) (w : A) :
  Forall (fun x => good (key x)) l ->
  hd_error (sort_reverse key lt l) = Some w ->
  In w l /\ forall c, In c l -> lt (key w) (key c) = false.
Proof.
  intros Hgood Hw. rewrite hd_sort_reverse in Hw. split.
  - apply in_rev. now apply last_winner_In.
  - intros c Hc. apply (last_winner_max (rev l)); auto.
    + apply Forall_forall. intros y Hy. rewrite Forall_forall in Hgood.
      apply Hgood. now apply in_rev.
    + now apply in_rev in Hc.
Qed.
End Ordered.
End SortFacts.


(** ** The order of floats *)

Lemma compare_rank (x y : float) :
  is_nan x = false -> is_nan y = false ->
  exists c, SFcompare x y = Some c
    /\ (c = Lt <-> rank_lt x y) /\ (c = Eq <-> rank_eq x y).
Proof.
  unfold rank_lt, rank_eq.
  destruct x as [sx|sx| |sx mx ex], y as [sy|sy| |sy my ey]; try discriminate;
    intros _ _; cbn [SFcompare rank_class rank_exp rank_man];
    try (destruct sx); try (destruct sy); eexists; (split; [reflexivity|]);
    try (split; split; intros H; (discriminate || lia || reflexivity)).
  - change (Pos.compare_cont Eq mx my) with (Pos.compare mx my).
    destruct (Z.compare_spec ex ey); [destruct (Pos.compare_spec mx my)| |];
      cbn [CompOpp]; split; split; intros Hc; (discriminate || lia || reflexivity).
  - change (Pos.compare_cont Eq mx my) with (Pos.compare mx my).
    destruct (Z.compare_spec ex ey); [destruct (Pos.compare_spec mx my)| |];
      cbn [CompOpp]; split; split; intros Hc; (discriminate || lia || reflexivity).
Qed.

Lemma ltb_rank (x y : float) :
  is_nan x = false -> is_nan y = false ->
  (PyFloat.ltb x y = true <-> rank_lt x y).
Proof.
  intros Hx Hy. destruct (compare_rank x y Hx Hy) as [c [Hc [Hlt _]]].
  unfold PyFloat.ltb, SFltb. rewrite Hc. rewrite <- Hlt.
  destruct c; split; congruence.
Qed.

Lemma eqb_rank (x y : float) :
  is_nan x = false -> is_nan y = false ->
  (PyFloat.eqb x y = true <-> rank_eq x y).
Proof.
  intros Hx Hy. destruct (compare_rank x y Hx Hy) as [c [Hc [_ Heq]]].
  unfold PyFloat.eqb, SFeqb. rewrite Hc. rewrite <- Heq.
  destruct c; split; congruence.
Qed.

Ltac reflect_bool E b :=
  destruct b;
  [ pose proof (proj1 E eq_refl)
  | pose proof (fun X => diff_false_true (proj2 E X)) ];
  clear E.

Lemma key_lt_rank (k k' : float * float) :
  key_ok k -> key_ok k' ->
  (key_lt k k' = true <->
   rank_lt (fst k) (fst k') \/ (rank_eq (fst k) (fst k') /\ rank_lt (snd k) (snd k'))).
Proof.
  intros [H1 H2] [H1' H2']. unfold key_lt.
  pose proof (eqb_rank _ _ H1 H1') as E1. pose proof (eqb_rank _ _ H2 H2') as E2.
  pose proof (ltb_rank _ _ H1 H1') as L1. pose proof (ltb_rank _ _ H2 H2') as L2.
  reflect_bool E1 (PyFloat.eqb (fst k) (fst k'));
    reflect_bool E2 (PyFloat.eqb (snd k) (snd k'));
    reflect_bool L1 (PyFloat.ltb (fst k) (fst k'));
    reflect_bool L2 (PyFloat.ltb (snd k) (snd k'));
    cbn [negb]; unfold rank_lt, rank_eq in *;
    (split; [intros Hb; try discriminate Hb | intros Hr; try reflexivity; exfalso]);
    lia.
Qed.

Lemma key_lt_false_iff (k k' : float * float) :
  key_ok k -> key_ok k' ->
  (key_lt k k' = false <->
   ~ (rank_lt (fst k) (fst k') \/ (rank_eq (fst k) (fst k') /\ rank_lt (snd k) (snd k')))).
Proof.
  intros Hk Hk'. rewrite <- (key_lt_rank k k' Hk Hk').
  destruct (key_lt k k'); split; congruence.
Qed.

Lemma key_lt_irrefl (a : float * float) : key_ok a -> key_lt a a = false.
Proof.
  intros Ha. apply (key_lt_false_iff a a Ha Ha).
  unfold rank_lt, rank_eq. lia.
Qed.

Lemma key_lt_asym (a b : float * float) :
  key_ok a -> key_ok b -> key_lt a b = true -> key_lt b a = false.
Proof.
  intros Ha Hb H. apply (key_lt_rank a b Ha Hb) in H.
  apply (key_lt_false_iff b a Hb Ha).
  unfold rank_lt, rank_eq in *. lia.
Qed.

Lemma key_lt_negtrans (a b c : float * float) :
  key_ok a -> key_ok b -> key_ok c ->
  key_lt a b = false -> key_lt b c = false -> key_lt a c = false.
Proof.
  intros Ha Hb Hc Hab Hbc.
  apply (key_lt_false_iff a b Ha Hb) in Hab.
  apply (key_lt_false_iff b c Hb Hc) in Hbc.
  apply (key_lt_false_iff a c Ha Hc).
  unfold rank_lt, rank_eq in *. lia.
Qed.

(** Keys that are neither the same nor in one order are in the other. *)
Lemma key_lt_total (a b : float * float) :
  key_ok a -> key_ok b ->
  key_lt b a = false -> key_same a b = false -> key_lt a b = true.
Proof.
  intros Ha Hb Hba Hsame.
  apply (key_lt_false_iff b a Hb Ha) in Hba.
  apply (key_lt_rank a b Ha Hb).
  destruct Ha as [Ha1 Ha2], Hb as [Hb1 Hb2].
  pose proof (eqb_rank _ _ Ha1 Hb1) as E1. pose proof (eqb_rank _ _ Ha2 Hb2) as E2.
  unfold key_same in Hsame.
  reflect_bool E1 (PyFloat.eqb (fst a) (fst b));
    reflect_bool E2 (PyFloat.eqb (snd a) (snd b));
    try discriminate Hsame; unfold rank_lt, rank_eq in *; lia.
Qed.

(** ** Sorting the candidates is sorting the blocks they come from *)

Section SortMap.
Context {A B K : Type}.
Variable f : A -> B.
Variable keyA : A -> K.
Variable keyB : B -> K.
Variable lt : K -> K -> bool.
Hypothesis key_f : forall a, keyB (f a) = keyA a.

Lemma insert_map (x : A) (s : list A) :
  insert keyB lt (f x) (map f s) = map f (insert keyA lt x s).
Proof.
  induction s as [|y s IH]; simpl; [reflexivity|].
  rewrite !key_f. destruct (lt (keyA y) (keyA x)); simpl; [now rewrite IH | reflexivity].
Qed.

Lemma stable_sort_map (l : list A) :
  stable_sort keyB lt (map f l) = map f (stable_sort keyA lt l).
Proof.
  induction l as [|x l IH]; simpl; [reflexivity|].
  change (fold_right (insert keyB lt) [] (map f l)) with (stable_sort keyB lt (map f l)).
  rewrite IH. apply insert_map.
Qed.

Lemma sort_reverse_map (l : list A) :
  sort_reverse keyB lt (map f l) = map f (sort_reverse keyA lt l).
Proof.
  unfold sort_reverse. now rewrite <- map_rev, stable_sort_map, map_rev.
Qed.
End SortMap.

Lemma sorted_candidates (blocks : list Block) :
  sort_reverse cand_key key_lt (collect_candidates blocks)
  = map candidate_of (sort_reverse block_key key_lt (filter nonblank blocks)).
Proof.
  rewrite collect_candidates_filter.
  apply sort_reverse_map. reflexivity.
Qed.

Lemma sort_reverse_nil_inv {A K : Type} (key : A -> K) (lt : K -> K -> bool) (l : list A) :
  sort_reverse key lt l = [] -> l = [].
Proof.
  unfold sort_reverse. intros H.
  apply (f_equal (@rev A)) in H. rewrite rev_involutive in H. simpl in H.
  apply stable_sort_nil_inv in H.
  apply (f_equal (@rev A)) in H. now rewrite rev_involutive in H.
Qed.

(** The result of the selection in terms of the sorted candidates. *)
Lemma select_drawing_number_sorted (blocks : list Block) :
  select_drawing_number blocks
  = Ok match sort_reverse cand_key key_lt (collect_candidates blocks) with
       | best :: _ => replace newline [] (cand_text best)
       | [] => unreadable
       end.
Proof.
  unfold select_drawing_number.
  destruct blocks as [|b blocks]; [reflexivity|].
  destruct (collect_candidates (b :: blocks)) as [|c cs] eqn:Hc; [reflexivity|].
  destruct (sort_reverse cand_key key_lt (c :: cs)) as [|best rest] eqn:Hs.
  - apply sort_reverse_nil_inv in Hs. discriminate.
  - reflexivity.
Qed.

Lemma filter_nonblank_nil (blocks : list Block) :
  (forall b, In b blocks -> nonblank b = false) -> filter nonblank blocks = [].
Proof.
  induction blocks as [|b blocks IH]; intros H; simpl; [reflexivity|].
  rewrite (H b (or_introl eq_refl)). apply IH. intros b' Hb'. apply H. now right.
Qed.

(** With a surviving block the sorted candidates are not empty and their
    head comes from a surviving block. *)
Lemma sorted_candidates_head (blocks : list Block) (b : Block) :
  In b blocks -> nonblank b = true ->
  exists w rest,
    sort_reverse block_key key_lt (filter nonblank blocks) = w :: rest
    /\ In w blocks /\ nonblank w = true
    /\ sort_reverse cand_key key_lt (collect_candidates blocks)
       = candidate_of w :: map candidate_of rest.
Proof.
  intros Hin Hnb.
  assert (Hf : In b (filter nonblank blocks)) by (apply filter_In; auto).
  destruct (sort_reverse block_key key_lt (filter nonblank blocks)) as [|w rest] eqn:Hs.
  - apply sort_reverse_nil_inv in Hs. rewrite Hs in Hf. destruct Hf.
  - exists w, rest. split; [reflexivity|].
    assert (Hw : In w (filter nonblank blocks)).
    { assert (Hhd : hd_error (sort_reverse block_key key_lt (filter nonblank blocks)) = Some w)
        by now rewrite Hs.
      rewrite hd_sort_reverse in Hhd. apply last_winner_In in Hhd. now apply in_rev. }
    apply filter_In in Hw. destruct Hw as [Hw1 Hw2].
    repeat split; auto.
    rewrite sorted_candidates, Hs. reflexivity.
Qed.


(** ** The selection of the drawing number *)

Lemma winner_max (blocks : list Block) (w : Block) (rest : list Block) :
  (forall b, In b blocks -> nonblank b = true -> key_ok (block_key b)) ->
  sort_reverse block_key key_lt (filter nonblank blocks) = w :: rest ->
  forall c, In c blocks -> nonblank c = true ->
    key_lt (block_key w) (block_key c) = false.
Proof.
  intros Hok Hs c Hc Hnb.
  assert (Hgood : Forall (fun x => key_ok (block_key x)) (filter nonblank blocks)).
  { apply Forall_forall. intros x Hx. apply filter_In in Hx. now apply Hok. }
  assert (Hhd : hd_error (sort_reverse block_key key_lt (filter nonblank blocks)) = Some w)
    by now rewrite Hs.
  destruct (sort_reverse_max block_key key_lt key_ok key_lt_irrefl key_lt_asym
              key_lt_negtrans _ _ Hgood Hhd) as [_ Hmax].
  apply Hmax. apply filter_In. auto.
Qed.

(** C2. Of two blocks with text, the one with the strictly greater bottom
    edge is never passed over for the other: the candidate at the head of
    the sorted list, whose text is returned, lies strictly below the block
    with the smaller bottom edge, whatever the right edges are. *)
Theorem C2_lower_block_preferred (blocks : list Block) (b1 b2 : Block) :
  (forall b, In b blocks -> nonblank b = true -> key_ok (block_key b)) ->
  In b1 blocks -> In b2 blocks ->
  nonblank b1 = true -> nonblank b2 = true ->
  PyFloat.ltb (blk_y1 b2) (blk_y1 b1) = true ->
  exists best rest,
    sort_reverse cand_key key_lt (collect_candidates blocks) = best :: rest
    /\ select_drawing_number blocks = Ok (replace newline [] (cand_text best))
    /\ PyFloat.ltb (blk_y1 b2) (cand_y1 best) = true
    /\ best <> candidate_of b2.
Proof.
  intros Hok H1 H2 Hn1 Hn2 Hlt.
  destruct (sorted_candidates_head blocks b1 H1 Hn1) as [w [rest [Hs [Hw [Hnw Hc]]]]].
  exists (candidate_of w), (map candidate_of rest).
  pose proof (winner_max blocks w rest Hok Hs b1 H1 Hn1) as Hmax.
  pose proof (Hok w Hw Hnw) as Kw. pose proof (Hok b1 H1 Hn1) as K1.
  pose proof (Hok b2 H2 Hn2) as K2.
  apply (key_lt_false_iff _ _ Kw K1) in Hmax.
  destruct Kw as [Kw1 Kw2], K1 as [K11 K12], K2 as [K21 K22]. simpl in *.
  apply (ltb_rank _ _ K21 K11) in Hlt.
  assert (Hbelow : PyFloat.ltb (blk_y1 b2) (blk_y1 w) = true).
  { apply (ltb_rank _ _ K21 Kw1). unfold rank_lt, rank_eq in *. lia. }
  split; [exact Hc|]. split; [now rewrite select_drawing_number_sorted, Hc|].
  split; [exact Hbelow|].
  intros Heq. apply (f_equal cand_y1) in Heq. simpl in Heq. rewrite Heq in Hbelow.
  apply (ltb_rank _ _ K21 K21) in Hbelow. unfold rank_lt in Hbelow. lia.
Qed.

(** C3. Of two blocks with text and numerically equal bottom edges, the one
    with the greater right edge is preferred: the key of the candidate at
    the head of the sorted list, whose text is returned, is strictly above
    the key of the block with the smaller right edge. *)
Theorem C3_right_edge_breaks_tie (blocks : list Block) (b1 b2 : Block) :
  (forall b, In b blocks -> nonblank b = true -> key_ok (block_key b)) ->
  In b1 blocks -> In b2 blocks ->
  nonblank b1 = true -> nonblank b2 = true ->
  PyFloat.eqb (blk_y1 b1) (blk_y1 b2) = true ->
  PyFloat.ltb (blk_x1 b2) (blk_x1 b1) = true ->
  exists best rest,
    sort_reverse cand_key key_lt (collect_candidates blocks) = best :: rest
    /\ select_drawing_number blocks = Ok (replace newline [] (cand_text best))
    /\ key_lt (block_key b2) (cand_key best) = true
    /\ best <> candidate_of b2.
Proof.
  intros Hok H1 H2 Hn1 Hn2 Heq Hlt.
  destruct (sorted_candidates_head blocks b1 H1 Hn1) as [w [rest [Hs [Hw [Hnw Hc]]]]].
  exists (candidate_of w), (map candidate_of rest).
  pose proof (winner_max blocks w rest Hok Hs b1 H1 Hn1) as Hmax.
  pose proof (Hok w Hw Hnw) as Kw. pose proof (Hok b1 H1 Hn1) as K1.
  pose proof (Hok b2 H2 Hn2) as K2.
  assert (Habove : key_lt (block_key b2) (block_key w) = true).
  { apply (key_lt_false_iff _ _ Kw K1) in Hmax.
    apply (key_lt_rank _ _ K2 Kw).
    destruct Kw as [Kw1 Kw2], K1 as [K11 K12], K2 as [K21 K22]. simpl in *.
    apply (eqb_rank _ _ K11 K21) in Heq. apply (ltb_rank _ _ K22 K12) in Hlt.
    unfold rank_lt, rank_eq in *. lia. }
  split; [exact Hc|]. split; [now rewrite select_drawing_number_sorted, Hc|].
  split; [exact Habove|].
  intros Hbest. apply (f_equal cand_key) in Hbest.
  change (block_key w = block_key b2) in Hbest. rewrite Hbest in Habove.
  rewrite (key_lt_irrefl _ K2) in Habove. discriminate.
Qed.

Lemma sorted_head_block (blocks : list Block) (best : Candidate) (rest : list Candidate) :
  sort_reverse cand_key key_lt (collect_candidates blocks) = best :: rest ->
  exists w, best = candidate_of w /\ In w blocks /\ nonblank w = true.
Proof.
  rewrite sorted_candidates. intros H.
  destruct (sort_reverse block_key key_lt (filter nonblank blocks)) as [|w r] eqn:Hs;
    [discriminate|].
  injection H as <- _. exists w. split; [reflexivity|].
  assert (Hhd : hd_error (sort_reverse block_key key_lt (filter nonblank blocks)) = Some w)
    by now rewrite Hs.
  rewrite hd_sort_reverse in Hhd. apply last_winner_In, in_rev, filter_In in Hhd.
  exact Hhd.
Qed.

Lemma unreadable_newline_free : ~ In newline unreadable.
Proof.
  intros H. vm_compute in H.
  repeat match goal with
         | X : _ \/ _ |- _ => destruct X as [X|X]; [discriminate X|]
         end.
  exact H.
Qed.

(** C4, as the code has it. The selection never raises. It returns the
    "unreadable" label for the empty sequence and whenever every block is
    empty after trimming; when some block has text it returns the text of
    the candidate at the head of the sorted list, newlines deleted. That
    text is the label only if a block's own text spells it: when no block
    does, the label is returned exactly when no candidate survives. *)
Theorem C4_label_when_no_candidate :
  select_drawing_number [] = Ok unreadable
  /\ forall blocks : list Block,
      ((forall b, In b blocks -> nonblank b = false) ->
       select_drawing_number blocks = Ok unreadable)
      /\ (forall b, In b blocks -> nonblank b = true ->
          exists best rest,
            sort_reverse cand_key key_lt (collect_candidates blocks) = best :: rest
            /\ select_drawing_number blocks = Ok (replace newline [] (cand_text best)))
      /\ ((forall b, In b blocks -> nonblank b = true -> text_of_winner b <> unreadable) ->
          (select_drawing_number blocks = Ok unreadable
           <-> forall b, In b blocks -> nonblank b = false)).
Proof.
  split; [reflexivity|]. intros blocks.
  assert (Hblank : (forall b, In b blocks -> nonblank b = false) ->
                   select_drawing_number blocks = Ok unreadable).
  { intros H. rewrite select_drawing_number_sorted, sorted_candidates.
    now rewrite (filter_nonblank_nil blocks H). }
  assert (Hsome : forall b, In b blocks -> nonblank b = true ->
            exists w rest,
              In w blocks /\ nonblank w = true
              /\ sort_reverse cand_key key_lt (collect_candidates blocks)
                 = candidate_of w :: rest
              /\ select_drawing_number blocks = Ok (text_of_winner w)).
  { intros b Hb Hnb.
    destruct (sorted_candidates_head blocks b Hb Hnb) as [w [rest [_ [Hw [Hnw Hc]]]]].
    exists w, (map candidate_of rest). repeat split; auto.
    rewrite select_drawing_number_sorted, Hc. unfold text_of_winner.
    now rewrite replace_newline_filter. }
  split; [exact Hblank|]. split.
  - intros b Hb Hnb. destruct (Hsome b Hb Hnb) as [w [rest [_ [_ [Hc Hsel]]]]].
    exists (candidate_of w), rest. split; [exact Hc|].
    now rewrite select_drawing_number_sorted, Hc.
  - intros Hlabel. split; [|exact Hblank].
    intros Hsel b Hb. destruct (nonblank b) eqn:Hnb; [exfalso | reflexivity].
    destruct (Hsome b Hb Hnb) as [w [rest [Hw [Hnw [_ Hsel']]]]].
    rewrite Hsel in Hsel'. injection Hsel' as Heq.
    now apply (Hlabel w Hw Hnw).
Qed.

(** C5. The selection returns a string without any newline. When a candidate
    is selected, the string is the trimmed text of the block it was built
    from with every newline deleted and nothing put in its place. *)
Theorem C5_newlines_deleted (blocks : list Block) :
  exists s,
    select_drawing_number blocks = Ok s
    /\ ~ In newline s
    /\ forall best rest,
        sort_reverse cand_key key_lt (collect_candidates blocks) = best :: rest ->
        s = filter (fun c => negb (c =? newline)%N) (cand_text best)
        /\ exists b, In b blocks /\ nonblank b = true
                     /\ cand_text best = strip (blk_text b).
Proof.
  rewrite select_drawing_number_sorted.
  destruct (sort_reverse cand_key key_lt (collect_candidates blocks)) as [|best rest] eqn:Hs.
  - exists unreadable. split; [reflexivity|]. split; [exact unreadable_newline_free|].
    intros best rest H. discriminate H.
  - exists (replace newline [] (cand_text best)). split; [reflexivity|].
    split; [apply replace_newline_free|].
    intros best' rest' H. injection H as <- <-.
    split; [apply replace_newline_filter|].
    destruct (sorted_head_block blocks best rest Hs) as [w [-> [Hw Hnw]]].
    exists w. auto.
Qed.

(** C10. Among the surviving blocks whose key is maximal, the earliest in
    the input order is selected: when no surviving block has a greater key
    than [b] and no earlier surviving block has the same key, the candidate
    of [b] is at the head of the sorted list and its text is returned,
    also when later blocks share the key of [b]. *)
Theorem C10_earliest_of_equal_keys (pre post : list Block) (b : Block) :
  (forall c, In c (pre ++ b :: post) -> nonblank c = true -> key_ok (block_key c)) ->
  nonblank b = true ->
  (forall c, In c (pre ++ b :: post) -> nonblank c = true ->
     key_lt (block_key b) (block_key c) = false) ->
  (forall c, In c pre -> nonblank c = true ->
     key_same (block_key c) (block_key b) = false) ->
  exists rest,
    sort_reverse cand_key key_lt (collect_candidates (pre ++ b :: post))
    = candidate_of b :: rest
    /\ select_drawing_number (pre ++ b :: post)
       = Ok (replace newline [] (strip (blk_text b))).
Proof.
  intros Hok Hnb Hmax Hfirst.
  assert (Hb : In b (pre ++ b :: post)) by apply in_elt.
  assert (Hhd : hd_error (sort_reverse block_key key_lt
                            (filter nonblank (pre ++ b :: post))) = Some b).
  { rewrite filter_app. simpl. rewrite Hnb.
    apply hd_sort_reverse_earliest.
    - intros c Hc. apply filter_In in Hc. destruct Hc as [Hc Hnc].
      assert (Hc' : In c (pre ++ b :: post)) by (apply in_or_app; now left).
      apply key_lt_total; auto.
    - intros c Hc. apply filter_In in Hc. destruct Hc as [Hc Hnc].
      apply Hmax; auto. apply in_or_app. right. now right. }
  destruct (sort_reverse block_key key_lt (filter nonblank (pre ++ b :: post)))
    as [|w rest] eqn:Hs; [discriminate|].
  injection Hhd as ->.
  exists (map candidate_of rest).
  assert (Hc : sort_reverse cand_key key_lt (collect_candidates (pre ++ b :: post))
               = candidate_of b :: map candidate_of rest)
    by now rewrite sorted_candidates, Hs.
  split; [exact Hc|]. now rewrite select_drawing_number_sorted, Hc.
Qed.


(** ** The product of a channel value and 255 *)

Lemma digits2_pos_size (p : positive) : digits2_pos p = Pos.size p.
Proof. induction p; simpl; congruence. Qed.

Lemma digits2_pos_bounds (p : positive) :
  2 ^ (Zpos (digits2_pos p) - 1) <= Zpos p < 2 ^ Zpos (digits2_pos p).
Proof.
  rewrite digits2_pos_size. split.
  - pose proof (Pos.size_le p) as H.
    assert (H' : 2 ^ Zpos (Pos.size p) <= 2 * Zpos p).
    { change 2 with (Zpos 2) at 1. rewrite <- Pos2Z.inj_pow. 
      change (2 * Zpos p) with (Zpos (p~0)). apply Pos2Z.pos_le_pos. exact H. }
    replace (Zpos (Pos.size p)) with (Z.succ (Zpos (Pos.size p) - 1)) in H' by lia.
    rewrite Z.pow_succ_r in H' by lia. lia.
  - pose proof (Pos.size_gt p) as H.
    change 2 with (Zpos 2). rewrite <- Pos2Z.inj_pow. apply Pos2Z.pos_lt_pos. exact H.
Qed.

Lemma Zdigits2_le (m k : Z) : 0 <= m -> 0 <= k -> m < 2 ^ k -> Zdigits2 m <= k.
Proof.
  intros Hm Hk Hlt. destruct m as [|p|p]; simpl; [lia| |lia].
  destruct (digits2_pos_bounds p) as [Hlo _].
  destruct (Z_le_gt_dec (Zpos (digits2_pos p)) k) as [|Hgt]; [assumption|exfalso].
  assert (2 ^ k <= 2 ^ (Zpos (digits2_pos p) - 1)) by (apply Z.pow_le_mono_r; lia).
  lia.
Qed.

Lemma shr_1_m (mrs : shr_record) :
  0 <= shr_m mrs -> shr_m (shr_1 mrs) = shr_m mrs / 2.
Proof.
  destruct mrs as [m r s]. cbn [shr_m shr_1]. intros Hm.
  destruct m as [|[p|p|]|p]; cbn [shr_m]; try lia.
  - reflexivity.
  - apply (Z.div_unique_pos _ 2 (Zpos p) 1); lia.
  - apply (Z.div_unique_pos _ 2 (Zpos p) 0); lia.
  - reflexivity.
Qed.

Lemma shr_1_nonneg (mrs : shr_record) : 0 <= shr_m mrs -> 0 <= shr_m (shr_1 mrs).
Proof. intros H. rewrite shr_1_m by assumption. apply Z.div_pos; lia. Qed.

Lemma pow2_xO (q : positive) : 2 ^ Zpos q~0 = 2 ^ Zpos q * 2 ^ Zpos q.
Proof. rewrite <- Z.pow_add_r by lia. f_equal. lia. Qed.

Lemma pow2_xI (q : positive) : 2 ^ Zpos q~1 = 2 * (2 ^ Zpos q * 2 ^ Zpos q).
Proof. rewrite <- Z.pow_add_r, <- Z.pow_succ_r by lia. f_equal. lia. Qed.

Lemma iter_shr_1_m (p : positive) (mrs : shr_record) :
  0 <= shr_m mrs ->
  shr_m (iter_pos shr_1 p mrs) = shr_m mrs / 2 ^ Zpos p.
Proof.
  revert mrs.
  assert (Hpow : forall q : positive, 0 < 2 ^ Zpos q) by (intros; apply Z.pow_pos_nonneg; lia).
  induction p as [p IH|p IH|]; intros mrs Hm; cbn [iter_pos].
  - pose proof (shr_1_nonneg mrs Hm) as H1.
    assert (H2 : 0 <= shr_m (iter_pos shr_1 p (shr_1 mrs)))
      by (rewrite IH by lia; apply Z.div_pos; auto).
    pose proof (Hpow p).
    rewrite IH, IH, shr_1_m, pow2_xI by lia.
    rewrite !Z.div_div by lia. reflexivity.
  - assert (H2 : 0 <= shr_m (iter_pos shr_1 p mrs))
      by (rewrite IH by lia; apply Z.div_pos; auto).
    pose proof (Hpow p).
    rewrite IH, IH, pow2_xO by lia.
    rewrite !Z.div_div by lia. reflexivity.
  - rewrite shr_1_m by lia. reflexivity.
Qed.

Lemma round_nearest_even_bounds (m : Z) (l : location) :
  m <= round_nearest_even m l <= m + 1.
Proof.
  destruct l as [|[| |]]; cbn [round_nearest_even]; try lia.
  destruct (Z.even m); lia.
Qed.

(** The first component of [shr_fexp] is the mantissa shifted right. *)
Lemma shr_fexp_spec (m e : Z) (l : location) :
  0 <= m ->
  exists mrs e',
    shr_fexp prec emax m e l = (mrs, e')
    /\ ((e' = e /\ shr_m mrs = m)
        \/ (e < e' /\ e' = fexp prec emax (Zdigits2 m + e) /\ shr_m mrs = m / 2 ^ (e' - e))).
Proof.
  intros Hm. unfold shr_fexp, shr.
  assert (Hrec : shr_m (shr_record_of_loc m l) = m) by (destruct l as [|[| |]]; reflexivity).
  destruct (fexp prec emax (Zdigits2 m + e) - e) as [|p|p] eqn:Hn.
  - eexists _, _. split; [reflexivity|]. left. auto.
  - eexists _, _. split; [reflexivity|]. right.
    split; [lia|]. split; [lia|].
    rewrite iter_shr_1_m by lia. rewrite Hrec. f_equal. f_equal. lia.
  - eexists _, _. split; [reflexivity|]. left. auto.
Qed.

Lemma fexp_le_m45 (m e : Z) :
  0 <= m -> e <= -45 -> m <= 255 * 2 ^ (- e) ->
  fexp prec emax (Zdigits2 m + e) <= -45.
Proof.
  intros Hm He Hle.
  assert (Hd : Zdigits2 m <= 8 - e).
  { apply Zdigits2_le; [lia | lia |].
    replace (8 - e) with (8 + - e) by lia. rewrite Z.pow_add_r by lia.
    assert (0 < 2 ^ (- e)) by (apply Z.pow_pos_nonneg; lia).
    change (2 ^ 8) with 256. lia. }
  unfold fexp, SpecFloat.emin, prec, emax. lia.
Qed.

Lemma pow2_split (e e' : Z) :
  e < e' -> e' <= 0 -> 2 ^ (- e) = 2 ^ (e' - e) * 2 ^ (- e').
Proof. intros H1 H2. rewrite <- Z.pow_add_r by lia. f_equal. lia. Qed.

Lemma shr_fexp_below (m e : Z) (l : location) (mrs : shr_record) (e' : Z) :
  below_255 m e -> shr_fexp prec emax m e l = (mrs, e') -> below_255 (shr_m mrs) e'.
Proof.
  intros [Hm [He Hlt]] Hs.
  destruct (shr_fexp_spec m e l Hm) as [mrs0 [e0 [Hs0 Hcase]]].
  rewrite Hs in Hs0. injection Hs0 as <- <-.
  destruct Hcase as [[-> ->]|[Hlt' [He' Hm']]]; [repeat split; assumption|].
  assert (He45 : e' <= -45) by (rewrite He'; apply fexp_le_m45; lia).
  assert (Hp : 0 < 2 ^ (e' - e)) by (apply Z.pow_pos_nonneg; lia).
  rewrite Hm'. split; [apply Z.div_pos; lia|]. split; [assumption|].
  apply Z.div_lt_upper_bound; [assumption|].
  rewrite (pow2_split e e') in Hlt by lia. lia.
Qed.

Lemma shr_fexp_at_most (m e : Z) (l : location) (mrs : shr_record) (e' : Z) :
  at_most_255 m e -> shr_fexp prec emax m e l = (mrs, e') -> at_most_255 (shr_m mrs) e'.
Proof.
  intros [Hm [He Hle]] Hs.
  destruct (shr_fexp_spec m e l Hm) as [mrs0 [e0 [Hs0 Hcase]]].
  rewrite Hs in Hs0. injection Hs0 as <- <-.
  destruct Hcase as [[-> ->]|[Hlt' [He' Hm']]]; [repeat split; assumption|].
  assert (He45 : e' <= -45) by (rewrite He'; apply fexp_le_m45; lia).
  assert (Hp : 0 < 2 ^ (e' - e)) by (apply Z.pow_pos_nonneg; lia).
  rewrite Hm'. split; [apply Z.div_pos; lia|]. split; [assumption|].
  apply Z.div_le_upper_bound; [assumption|].
  rewrite (pow2_split e e') in Hle by lia. lia.
Qed.

Lemma binary_round_aux_below (m e : Z) (l : location) :
  below_255 m e ->
  exists n, to_int (binary_round_aux prec emax false m e l) = Ok n /\ 0 <= n <= 255.
Proof.
  intros Hb. unfold binary_round_aux.
  destruct (shr_fexp prec emax m e l) as [mrs' e'] eqn:Hs1.
  pose proof (shr_fexp_below _ _ _ _ _ Hb Hs1) as [Hm1 [He1 Hlt1]].
  pose proof (round_nearest_even_bounds (shr_m mrs') (loc_of_shr_record mrs')) as Hr.
  set (m1 := round_nearest_even (shr_m mrs') (loc_of_shr_record mrs')) in *.
  assert (Hb1 : at_most_255 m1 e') by (unfold at_most_255; lia).
  destruct (shr_fexp prec emax m1 e' loc_Exact) as [mrs'' e''] eqn:Hs2.
  pose proof (shr_fexp_at_most _ _ _ _ _ Hb1 Hs2) as [Hm2 [He2 Hle2]].
  destruct (shr_m mrs'') as [|p|p] eqn:Hp; [exists 0; split; [reflexivity | lia]| |lia].
  replace (e'' <=? emax - prec) with true by (symmetry; apply Z.leb_le; unfold emax, prec; lia).
  destruct e'' as [|q|q]; [lia|lia|].
  cbn [to_int]. eexists. split; [reflexivity|].
  assert (0 < 2 ^ (- Zneg q)) by (apply Z.pow_pos_nonneg; lia).
  split; [apply Z.div_pos; lia|].
  apply Z.div_le_upper_bound; lia.
Qed.

Lemma compare_cont_Eq (p q : positive) : PosDef.Pos.compare_cont Eq p q = Pos.compare p q.
Proof. reflexivity. Qed.

Lemma mul_255_bounded (c : float) :
  in_unit_interval c ->
  exists n, to_int (mul c f255) = Ok n /\ 0 <= n <= 255.
Proof.
  intros [Hv [H0 H1]].
  destruct c as [s|s| |s m e].
  - exists 0. split; [reflexivity | lia].
  - destruct s; discriminate.
  - discriminate.
  - destruct s; [discriminate|].
    cbn [valid_binary] in Hv. unfold bounded, canonical_mantissa in Hv.
    apply andb_prop in Hv. destruct Hv as [Hcan _]. apply Z.eqb_eq in Hcan.
    assert (Hd : Zpos (digits2_pos m) <= 53)
      by (unfold fexp, SpecFloat.emin, prec, emax in Hcan; lia).
    unfold PyFloat.leb, SFleb, fone in H1. cbn [SFcompare] in H1.
    rewrite compare_cont_Eq in H1.
    assert (Hm : Zpos m < 2 ^ (- e) \/ (e = -52 /\ m = 4503599627370496%positive)).
    { destruct (Z.compare_spec e (-52)) as [He|He|He]; [| |discriminate].
      - destruct (Pos.compare_spec m 4503599627370496) as [Hm|Hm|Hm]; [| |discriminate].
        + right. auto.
        + left. subst e. apply Pos2Z.pos_lt_pos in Hm.
          change (2 ^ (- -52)) with 4503599627370496. exact Hm.
      - left. destruct (digits2_pos_bounds m) as [_ Hup].
        assert (2 ^ Zpos (digits2_pos m) <= 2 ^ (- e)) by (apply Z.pow_le_mono_r; lia).
        lia. }
    assert (He : e <= -52) by (destruct (Z.compare_spec e (-52)); (lia || discriminate)).
    clear H1 Hcan Hd.
    destruct Hm as [Hm|[-> ->]]; [|exists 255; split; [vm_compute; reflexivity | lia]].
    unfold mul, SFmul, f255. cbn [xorb].
    apply binary_round_aux_below. unfold below_255.
    split; [lia|]. split; [lia|].
    replace (- (e + -45)) with (45 + - e) by lia. rewrite Z.pow_add_r by lia.
    change (2 ^ 45) with 35184372088832.
    rewrite Pos2Z.inj_mul. lia.
Qed.

(** ** The colour code *)

Lemma byte_format_table : forallb byte_format_ok (map Z.of_nat (seq 0 256)) = true.
Proof. vm_compute. reflexivity. Qed.

Lemma format_02x_byte (n : Z) :
  0 <= n <= 255 ->
  exists d1 d2, format_02x n = [d1; d2]
    /\ is_lower_hex_digit d1 = true /\ is_lower_hex_digit d2 = true.
Proof.
  intros Hn.
  assert (Hin : In n (map Z.of_nat (seq 0 256))).
  { apply in_map_iff. exists (Z.to_nat n). split; [lia|]. apply in_seq. lia. }
  pose proof (proj1 (forallb_forall _ _) byte_format_table n Hin) as Hok.
  unfold byte_format_ok in Hok.
  destruct (format_02x n) as [|d1 [|d2 [|d3 ds]]]; try discriminate.
  apply andb_prop in Hok. exists d1, d2. tauto.
Qed.

Lemma channels_convert (cs : list float) :
  Forall in_unit_interval cs ->
  exists rgb, list_comprehension (fun c => to_int (mul c f255)) cs = Ok rgb
    /\ List.length rgb = List.length cs
    /\ Forall (fun v => 0 <= v <= 255) rgb.
Proof.
  induction 1 as [|c cs Hc Hcs [rgb [Hrgb [Hlen Hall]]]].
  - exists []. repeat split; constructor.
  - destruct (mul_255_bounded c Hc) as [n [Hn Hrange]].
    exists (n :: rgb). cbn [list_comprehension]. rewrite Hn, Hrgb. cbn [bind].
    repeat split; [simpl; congruence | constructor; assumption].
Qed.

Section ColorCode.
Variable float_repr : float -> pystr.

(** C9. For a colour of one or three channels, each a binary64 number of
    the interval [0, 1], the conversion [int(c * 255)] never raises and
    yields integers of the range 0..255, and [rgb_to_hex] returns [#]
    followed by exactly six lowercase hexadecimal digits. *)
Theorem C9_hex_code_well_formed (sq : pyseq) :
  (List.length (seq_items sq) = 1 \/ List.length (seq_items sq) = 3)%nat ->
  Forall in_unit_interval (seq_items sq) ->
  exists rgb ds,
    list_comprehension (fun c => to_int (mul c f255)) (seq_items sq) = Ok rgb
    /\ Forall (fun v => 0 <= v <= 255) rgb
    /\ rgb_to_hex float_repr (Some sq) = Ok (0x23%N :: ds)
    /\ List.length ds = 6%nat
    /\ forallb is_lower_hex_digit ds = true
    /\ is_lower_hex_code (0x23%N :: ds) = true.
Proof.
  intros Hlen Hunit.
  destruct (channels_convert _ Hunit) as [rgb [Hrgb [Hl Hall]]].
  rewrite <- Hl in Hlen.
  exists rgb. unfold rgb_to_hex. rewrite Hrgb. cbn [bind].
  assert (Hne : seq_items sq <> []) by (intros E; rewrite E in Hl; simpl in Hl; lia).
  destruct (seq_items sq) as [|c0 cs0]; [congruence|].
  clear Hne Hunit Hrgb Hl.
  assert (Hfmt : forall v, In v rgb ->
            exists d1 d2, format_02x v = [d1; d2]
              /\ is_lower_hex_digit d1 = true /\ is_lower_hex_digit d2 = true).
  { intros v Hv. apply format_02x_byte. rewrite Forall_forall in Hall. now apply Hall. }
  destruct rgb as [|r [|g [|b [|x rgb]]]]; simpl in Hlen; try lia.
  - destruct (Hfmt r (or_introl eq_refl)) as [d1 [d2 [Hr [H1 H2]]]].
    exists [d1; d2; d1; d2; d1; d2]. rewrite Hr.
    repeat split; auto; cbn; rewrite ?H1, ?H2; reflexivity.
  - destruct (Hfmt r (or_introl eq_refl)) as [d1 [d2 [Hr [H1 H2]]]].
    destruct (Hfmt g (or_intror (or_introl eq_refl))) as [d3 [d4 [Hg [H3 H4]]]].
    destruct (Hfmt b (or_intror (or_intror (or_introl eq_refl)))) as [d5 [d6 [Hb [H5 H6]]]].
    exists [d1; d2; d3; d4; d5; d6]. rewrite Hr, Hg, Hb.
    repeat split; auto; cbn; rewrite ?H1, ?H2, ?H3, ?H4, ?H5, ?H6; reflexivity.
Qed.
End ColorCode.

(** ** The colour name *)

Ltac case_N_tests :=
  repeat match goal with
         | |- context [(?a <=? ?b)%N] => destruct (N.leb_spec a b)
         | |- context [(?a =? ?b)%N] => destruct (N.eqb_spec a b)
         | H : context [(?a <=? ?b)%N] |- _ => destruct (N.leb_spec a b)
         | H : context [(?a =? ?b)%N] |- _ => destruct (N.eqb_spec a b)
         end.

Lemma upper_char_ci (c t : codepoint) :
  is_ascii_lower t = false -> (upper_char c =? t)%N = char_ci_eqb c t.
Proof.
  unfold upper_char, char_ci_eqb, is_ascii_upper, is_ascii_lower.
  intros Ht. case_N_tests; simpl in *; try reflexivity; try discriminate; lia.
Qed.

Lemma pystr_eqb_cons (a b : codepoint) (x y : pystr) :
  PyStr.eqb (a :: x) (b :: y) = (a =? b)%N && PyStr.eqb x y.
Proof.
  destruct (N.eqb_spec a b) as [->|Hab]; simpl.
  - destruct (PyStr.eqb x y) eqn:E.
    + apply pystr_eqb_eq in E. subst. now apply pystr_eqb_eq.
    + apply not_true_is_false. intros H. apply pystr_eqb_eq in H.
      injection H as H. apply pystr_eqb_eq in H. congruence.
  - apply not_true_is_false. intros H. apply pystr_eqb_eq in H. congruence.
Qed.

Lemma upper_eqb_ci (h t : pystr) :
  forallb (fun c => negb (is_ascii_lower c)) t = true ->
  PyStr.eqb (upper h) t = ci_eqb h t.
Proof.
  revert t. induction h as [|c h IH]; intros [|d t] Ht; try reflexivity.
  simpl in Ht. apply andb_prop in Ht. destruct Ht as [Hd Ht].
  cbn [upper map ci_eqb]. rewrite pystr_eqb_cons.
  change (map upper_char h) with (upper h). rewrite (IH t Ht).
  rewrite upper_char_ci; [reflexivity|]. now destruct (is_ascii_lower d).
Qed.

(** The chain of comparisons of [main] is the table lookup of the
    specification. *)
Lemma color_name_of_classify (hex : pystr) :
  color_name_of hex = color_label (classify hex).
Proof.
  unfold color_name_of, classify, color_table. cbn [classify_in].
  rewrite !upper_eqb_ci by reflexivity.
  destruct (ci_eqb hex (lit "#FF0000")); [reflexivity|].
  destruct (ci_eqb hex (lit "#0000FF")); [reflexivity|].
  destruct (ci_eqb hex (lit "#000000")); reflexivity.
Qed.

Lemma classify_other_head (c : codepoint) (rest : pystr) :
  c <> 0x23%N -> classify (c :: rest) = Other.
Proof.
  intros Hc. unfold classify.
  change color_table with
    [(0x23%N :: lit "FF0000", Red); (0x23%N :: lit "0000FF", Blue);
     (0x23%N :: lit "000000", Black)].
  cbn [classify_in ci_eqb].
  replace (char_ci_eqb c 0x23%N) with false; [reflexivity|].
  symmetry. unfold char_ci_eqb, is_ascii_upper, is_ascii_lower.
  case_N_tests; simpl; try reflexivity; lia.
Qed.

Section ColorFacts.
Variable float_repr : float -> pystr.

Lemma str_of_seq_head (sq : pyseq) :
  exists c rest, str_of_seq float_repr sq = c :: rest /\ (c = 0x28%N \/ c = 0x5B%N).
Proof.
  unfold str_of_seq. destruct (seq_kind_of sq).
  - destruct (map float_repr (seq_items sq)) as [|x [|y l]];
      eexists _, _; (split; [reflexivity|]); now left.
  - eexists _, _. split; [reflexivity|]. now right.
Qed.

(** The three shapes of a result of [rgb_to_hex]. *)
Lemma rgb_to_hex_shape (color_tuple : option pyseq) (h : pystr) :
  rgb_to_hex float_repr color_tuple = Ok h ->
  (h = not_specified
   /\ (color_tuple = None \/ exists k, color_tuple = Some (mk_pyseq k [])))
  \/ (exists rest, h = 0x23%N :: rest)
  \/ (exists sq, h = str_of_seq float_repr sq).
Proof.
  unfold rgb_to_hex. destruct color_tuple as [[k items]|]; cbn [seq_items].
  - destruct items as [|c items].
    + intros H. injection H as <-. left. split; [reflexivity|]. right. now exists k.
    + destruct (list_comprehension (fun c0 => to_int (mul c0 f255)) (c :: items))
        as [rgb|e]; cbn [bind]; [|discriminate].
      destruct rgb as [|r [|g [|b [|x rgb]]]]; intros H; injection H as <-;
        try (right; right; eexists; reflexivity);
        right; left; eexists; reflexivity.
  - intros H. injection H as <-. left. auto.
Qed.
End ColorFacts.

(** ** The loops of [main] *)

Lemma for_each_invariant {S A : Type} (Inv : S -> Prop) (body : S -> A -> result S) :
  (forall s x s', Inv s -> body s x = Ok s' -> Inv s') ->
  forall xs s s', Inv s -> for_each body xs s = Ok s' -> Inv s'.
Proof.
  intros Hbody xs. induction xs as [|x xs IH]; intros s s' Hs H; simpl in H.
  - injection H as <-. exact Hs.
  - destruct (body s x) as [s1|e] eqn:Hb; [|discriminate].
    simpl in H. eapply IH; [|exact H]. eapply Hbody; eauto.
Qed.

Lemma get_drawing_number_returns (p : Page) (w h : float) :
  exists drawing_no, get_drawing_number p w h = Ok drawing_no.
Proof.
  unfold get_drawing_number. rewrite select_drawing_number_sorted. eauto.
Qed.

Section Loops.
Variable float_repr : float -> pystr.

Lemma rgb_to_hex_returns (color_tuple : option pyseq) :
  (forall sq, color_tuple = Some sq -> Forall in_unit_interval (seq_items sq)) ->
  exists h, rgb_to_hex float_repr color_tuple = Ok h.
Proof.
  intros Hunit. unfold rgb_to_hex.
  destruct color_tuple as [sq|]; [|eauto].
  destruct (channels_convert _ (Hunit sq eq_refl)) as [rgb [Hrgb _]].
  rewrite Hrgb. cbn [bind].
  destruct (seq_items sq); [eauto|].
  destruct rgb as [|r [|g [|b [|x rgb]]]]; eauto.
Qed.

Lemma annot_step_spec (i : Z) (drawing_no : pystr) (acc acc' : list Row) (a : Annot) :
  annot_step float_repr i drawing_no acc a = Ok acc' ->
  (has_content a = false /\ acc' = acc)
  \/ (has_content a = true
      /\ exists r, acc' = acc ++ [r] /\ row_built float_repr i drawing_no a r).
Proof.
  unfold annot_step, has_content, row_built, row_of_annot, stroke_of.
  destruct (dict_get (annot_info a) "content") as [content|];
    [|intros H; injection H as <-; now left].
  destruct (is_empty content); [intros H; injection H as <-; now left|].
  destruct (rgb_to_hex float_repr (dict_get (annot_colors a) "stroke")) as [hex|e];
    cbn [bind]; [|discriminate].
  intros H. injection H as <-. right. split; [reflexivity|].
  eexists. split; [reflexivity|]. cbn. repeat split; reflexivity.
Qed.

Lemma annot_loop_spec (i : Z) (drawing_no : pystr) (annots : list Annot)
    (acc rows : list Row) :
  for_each (annot_step float_repr i drawing_no) annots acc = Ok rows ->
  exists new, rows = acc ++ new
    /\ Forall2 (row_built float_repr i drawing_no) (filter has_content annots) new.
Proof.
  revert acc. induction annots as [|a annots IH]; intros acc H; simpl in H.
  - injection H as <-. exists []. split; [now rewrite app_nil_r | constructor].
  - destruct (annot_step float_repr i drawing_no acc a) as [acc'|e] eqn:Hstep;
      [|discriminate].
    simpl in H. destruct (IH acc' H) as [new [-> Hnew]].
    destruct (annot_step_spec _ _ _ _ _ Hstep) as [[Hc ->]|[Hc [r [-> Hr]]]];
      simpl; rewrite Hc.
    + exists new. auto.
    + exists (r :: new). split; [now rewrite <- app_assoc | now constructor].
Qed.

Lemma annot_loop_returns (i : Z) (drawing_no : pystr) (annots : list Annot)
    (acc : list Row) :
  colors_normalized annots ->
  exists rows, for_each (annot_step float_repr i drawing_no) annots acc = Ok rows.
Proof.
  revert acc. induction annots as [|a annots IH]; intros acc Hn; simpl; [eauto|].
  assert (Hn' : colors_normalized annots)
    by (intros a' sq Ha'; apply Hn; now right).
  assert (Hstep : exists acc', annot_step float_repr i drawing_no acc a = Ok acc').
  { pose proof (Hn a) as Ha. unfold annot_step, has_content, stroke_of in *.
    destruct (dict_get (annot_info a) "content") as [content|]; [|eauto].
    destruct (is_empty content); [eauto|].
    destruct (rgb_to_hex_returns (dict_get (annot_colors a) "stroke")) as [h Hh].
    - intros sq Hsq. apply Ha; auto. now left.
    - rewrite Hh. cbn [bind]. eauto. }
  destruct Hstep as [acc' ->]. simpl. now apply IH.
Qed.

Lemma page_loop_spec (pages : list Page) (i0 : Z) (acc rows : list Row) :
  for_each (page_step float_repr) (enumerate_from i0 pages) acc = Ok rows ->
  exists new, rows = acc ++ new
    /\ Forall2 (row_from float_repr)
         (flat_map (fun ip : Z * Page =>
                      map (fun a => (fst ip, snd ip, a))
                        (filter has_content (page_annots (snd ip))))
            (enumerate_from i0 pages))
         new.
Proof.
  revert i0 acc. induction pages as [|p pages IH]; intros i0 acc H; simpl in H.
  - injection H as <-. exists []. split; [now rewrite app_nil_r | constructor].
  - destruct (get_drawing_number p (page_width p) (page_height p)) as [dn|e] eqn:Hdn;
      [|discriminate].
    cbn [bind] in H.
    destruct (for_each (annot_step float_repr i0 dn) (page_annots p) acc)
      as [acc'|e] eqn:Hloop; [|discriminate].
    cbn [bind] in H.
    destruct (annot_loop_spec _ _ _ _ _ Hloop) as [new1 [-> Hnew1]].
    destruct (IH _ _ H) as [new2 [-> Hnew2]].
    exists (new1 ++ new2). split; [now rewrite app_assoc|].
    cbn [enumerate_from flat_map fst snd]. apply Forall2_app; [|exact Hnew2].
    clear - Hnew1 Hdn. induction Hnew1 as [|a r annots rows Har _ IH']; cbn [map].
    + constructor.
    + constructor; [|exact IH']. cbn. exists dn. auto.
Qed.

Lemma page_loop_returns (pages : list Page) (i0 : Z) (acc : list Row) :
  doc_colors_normalized pages ->
  exists rows, for_each (page_step float_repr) (enumerate_from i0 pages) acc = Ok rows.
Proof.
  revert i0 acc. induction pages as [|p pages IH]; intros i0 acc Hn; simpl; [eauto|].
  destruct (get_drawing_number_returns p (page_width p) (page_height p)) as [dn ->].
  cbn [bind].
  destruct (annot_loop_returns i0 dn (page_annots p) acc) as [acc' ->];
    [apply Hn; now left|].
  cbn [bind]. apply IH. intros p' Hp'. apply Hn. now right.
Qed.
End Loops.

(** ** The claims on the rows *)

(** C1, as the specification states it, fails: an annotation whose content
    is one space gets a row, although the specification counts it among
    the annotations without visible content. *)
Lemma C1_whitespace_content_gets_row :
  ~ (forall (float_repr : float -> pystr) (i : Z) (drawing_no : pystr)
       (annots : list Annot) (rows : list Row),
       normalize float_repr i drawing_no annots = Ok rows ->
       Forall2 row_of_annot (filter has_visible_content annots) rows).
Proof.
  intros H.
  pose proof (H sample_repr 0 unreadable [annot_space]) as H'.
  change (filter has_visible_content [annot_space]) with (@nil Annot) in H'.
  specialize (H' _ eq_refl). inversion H'.
Qed.

(** C4, as the specification states it, fails: a block whose text spells
    the "unreadable" label survives as a candidate, and the selection
    returns the label. *)
Lemma C4_label_text_selected :
  ~ (forall blocks : list Block,
       (exists b, In b blocks /\ nonblank b = true) ->
       select_drawing_number blocks <> Ok unreadable).
Proof.
  intros H. apply (H [blk_label]).
  - exists blk_label. split; [now left | reflexivity].
  - vm_compute. reflexivity.
Qed.

Lemma Forall2_In_right {A B : Type} (R : A -> B -> Prop) (l : list A) (l' : list B) :
  Forall2 R l l' -> forall y, In y l' -> exists x, In x l /\ R x y.
Proof.
  induction 1 as [|x y l l' Hxy _ IH]; intros z Hz; [destruct Hz|].
  destruct Hz as [<-|Hz].
  - exists x. split; [now left | assumption].
  - destruct (IH z Hz) as [x' [Hx' Hr]]. exists x'. split; [now right | assumption].
Qed.

Section Rows.
Variable float_repr : float -> pystr.

(** C1, as the code has it. The annotation loop emits a row for exactly
    the annotations whose content is present and not the empty string, in
    their order; a content of whitespace only is kept. The loop returns
    whenever the stroke colours of these annotations are normalized. *)
Theorem C1_rows_for_nonempty_content (i : Z) (drawing_no : pystr) (annots : list Annot) :
  (colors_normalized annots ->
   exists rows, normalize float_repr i drawing_no annots = Ok rows)
  /\ (forall rows, normalize float_repr i drawing_no annots = Ok rows ->
      Forall2 row_of_annot (filter has_content annots) rows)
  /\ (forall a c, dict_get (annot_info a) "content" = Some c ->
      c <> [] -> has_content a = true).
Proof.
  split; [apply annot_loop_returns|]. split.
  - intros rows H. destruct (annot_loop_spec _ _ _ _ _ _ H) as [new [-> Hnew]].
    simpl. eapply Forall2_impl; [|exact Hnew].
    intros a r Hr. apply Hr.
  - intros a c Hc Hne. unfold has_content. rewrite Hc. now destruct c.
Qed.

(** C6. The colour (1.0, 0.0, 0.0) gives [#ff0000], the one-channel colour
    (0.0) gives [#000000], and an absent or empty colour gives the "not
    specified" label, which is not empty, is not a hex code, and is
    returned for no other colour. *)
Theorem C6_known_colours :
  (forall k, rgb_to_hex float_repr (Some (mk_pyseq k [fone; fzero; fzero]))
             = Ok (lit "#ff0000"))
  /\ (forall k, rgb_to_hex float_repr (Some (mk_pyseq k [fzero])) = Ok (lit "#000000"))
  /\ rgb_to_hex float_repr None = Ok not_specified
  /\ (forall k, rgb_to_hex float_repr (Some (mk_pyseq k [])) = Ok not_specified)
  /\ not_specified <> []
  /\ is_hex_code not_specified = false
  /\ (forall color_tuple, rgb_to_hex float_repr color_tuple = Ok not_specified ->
      color_tuple = None \/ exists k, color_tuple = Some (mk_pyseq k [])).
Proof.
  split; [intros k; vm_compute; reflexivity|].
  split; [intros k; vm_compute; reflexivity|].
  split; [reflexivity|]. split; [reflexivity|].
  split; [discriminate|]. split; [vm_compute; reflexivity|].
  intros color_tuple H.
  destruct (rgb_to_hex_shape float_repr _ _ H) as [[_ Habs]|[[rest Hr]|[sq Hsq]]].
  - exact Habs.
  - discriminate Hr.
  - destruct (str_of_seq_head float_repr sq) as [c [rest [Hs Hc]]].
    rewrite Hs in Hsq. unfold not_specified in Hsq. injection Hsq as Hc' _.
    destruct Hc as [->| ->]; discriminate Hc'.
Qed.

(** C7. In every emitted row the colour name is the label that the table
    of the specification gives for the colour code by a case-insensitive
    exact match: red for [#FF0000], blue for [#0000FF], black for
    [#000000], and "other" for every other code, among them the "not
    specified" label and the fallback text of a colour of another length. *)
Theorem C7_color_name_from_table (doc : list Page) (rows : list Row) :
  main_extract float_repr doc = Ok rows ->
  (forall r, In r rows ->
     row_color_name r = color_label (classify (row_color_hex r))
     /\ exists a, rgb_to_hex float_repr (stroke_of a) = Ok (row_color_hex r))
  /\ classify not_specified = Other
  /\ (forall sq, classify (str_of_seq float_repr sq) = Other)
  /\ (forall hex, ci_eqb hex (lit "#FF0000") = false ->
        ci_eqb hex (lit "#0000FF") = false ->
        ci_eqb hex (lit "#000000") = false -> classify hex = Other).
Proof.
  intros H. split; [|split; [|split]].
  - unfold main_extract, enumerate in H.
    destruct (page_loop_spec float_repr _ _ _ _ H) as [new [-> Hnew]]. simpl.
    intros r Hr.
    destruct (Forall2_In_right _ _ _ Hnew r Hr) as [[[i p] a] [_ [dn [_ Hb]]]].
    destruct Hb as [_ [_ [_ [Hhex Hname]]]].
    split; [now rewrite Hname, color_name_of_classify | now exists a].
  - reflexivity.
  - intros sq. destruct (str_of_seq_head float_repr sq) as [c [rest [-> Hc]]].
    apply classify_other_head. destruct Hc as [->| ->]; discriminate.
  - intros hex H1 H2 H3. unfold classify, color_table. cbn [classify_in].
    now rewrite H1, H2, H3.
Qed.

(** C8. The rows of a document correspond one to one, in page order and
    within a page in the order of its annotations, to the annotations with
    content; the row of an annotation carries the 1-based index of its own
    page and the drawing number selected on that page. The extraction
    returns whenever the stroke colours are normalized. *)
Theorem C8_rows_stamped_with_own_page (doc : list Page) :
  (doc_colors_normalized doc -> exists rows, main_extract float_repr doc = Ok rows)
  /\ (forall rows, main_extract float_repr doc = Ok rows ->
      Forall2 (row_from float_repr) (surviving doc) rows)
  /\ (forall i p a, In (i, p, a) (surviving doc) ->
      nth_error doc (Z.to_nat i) = Some p /\ 0 <= i
      /\ In a (page_annots p) /\ has_content a = true).
Proof.
  split; [apply page_loop_returns|]. split.
  - intros rows H. unfold main_extract, enumerate in H.
    destruct (page_loop_spec float_repr _ _ _ _ H) as [new [-> Hnew]]. exact Hnew.
  - unfold surviving, enumerate. intros i p a Hin.
    apply in_flat_map in Hin. destruct Hin as [[i' p'] [Hip Ha]].
    apply in_map_iff in Ha. destruct Ha as [a' [Heq Ha']]. cbn [fst snd] in *.
    injection Heq as -> -> ->. apply filter_In in Ha'.
    assert (Hen : forall (l : list Page) i0 j q, In (j, q) (enumerate_from i0 l) ->
              i0 <= j /\ nth_error l (Z.to_nat (j - i0)) = Some q).
    { induction l as [|x l IH]; intros i0 j q Hj; [destruct Hj|].
      destruct Hj as [Hj|Hj].
      - injection Hj as <- <-. rewrite Z.sub_diag. split; [lia | reflexivity].
      - destruct (IH _ _ _ Hj) as [Hle Hnth]. split; [lia|].
        replace (Z.to_nat (j - i0)) with (S (Z.to_nat (j - (i0 + 1)))) by lia.
        exact Hnth. }
    destruct (Hen _ _ _ _ Hip) as [Hle Hnth]. rewrite Z.sub_0_r in Hnth.
    tauto.
Qed.
End Rows.

(** ** The theorems at sample inputs *)

Ltac each_block H :=
  cbn [app In] in H;
  repeat (destruct H as [<-|H]; [vm_compute; try split; reflexivity|]);
  destruct H.

Lemma C2_lower_block_preferred_sample :
  exists best rest,
    sort_reverse cand_key key_lt (collect_candidates [blk_scale; blk_title]) = best :: rest
    /\ select_drawing_number [blk_scale; blk_title]
       = Ok (replace newline [] (cand_text best))
    /\ PyFloat.ltb (blk_y1 blk_scale) (cand_y1 best) = true
    /\ best <> candidate_of blk_scale.
Proof.
  apply (C2_lower_block_preferred [blk_scale; blk_title] blk_title blk_scale).
  - intros b Hb _. each_block Hb.
  - right. left. reflexivity.
  - left. reflexivity.
  - vm_compute. reflexivity.
  - vm_compute. reflexivity.
  - vm_compute. reflexivity.
Defined.

Lemma C3_right_edge_breaks_tie_sample :
  exists best rest,
    sort_reverse cand_key key_lt (collect_candidates [blk_title; blk_left]) = best :: rest
    /\ select_drawing_number [blk_title; blk_left]
       = Ok (replace newline [] (cand_text best))
    /\ key_lt (block_key blk_left) (cand_key best) = true
    /\ best <> candidate_of blk_left.
Proof.
  apply (C3_right_edge_breaks_tie [blk_title; blk_left] blk_title blk_left).
  - intros b Hb _. each_block Hb.
  - left. reflexivity.
  - right. left. reflexivity.
  - vm_compute. reflexivity.
  - vm_compute. reflexivity.
  - vm_compute. reflexivity.
  - vm_compute. reflexivity.
Defined.

Lemma C10_earliest_of_equal_keys_sample :
  exists rest,
    sort_reverse cand_key key_lt
      (collect_candidates ([blk_scale] ++ blk_title :: [blk_twin; blk_left]))
    = candidate_of blk_title :: rest
    /\ select_drawing_number ([blk_scale] ++ blk_title :: [blk_twin; blk_left])
       = Ok (replace newline [] (strip (blk_text blk_title))).
Proof.
  apply (C10_earliest_of_equal_keys [blk_scale] [blk_twin; blk_left] blk_title).
  - intros c Hc _. each_block Hc.
  - vm_compute. reflexivity.
  - intros c Hc _. each_block Hc.
  - intros c Hc _. each_block Hc.
Defined.

Lemma C9_hex_code_well_formed_sample :
  exists rgb ds,
    list_comprehension (fun c => to_int (mul c f255)) [fone; fhalf; fzero] = Ok rgb
    /\ Forall (fun v => 0 <= v <= 255) rgb
    /\ rgb_to_hex sample_repr (Some (mk_pyseq PyTuple [fone; fhalf; fzero]))
       = Ok (0x23%N :: ds)
    /\ List.length ds = 6%nat
    /\ forallb is_lower_hex_digit ds = true
    /\ is_lower_hex_code (0x23%N :: ds) = true.
Proof.
  apply (C9_hex_code_well_formed sample_repr (mk_pyseq PyTuple [fone; fhalf; fzero])).
  - right. reflexivity.
  - repeat constructor; vm_compute; reflexivity.
Defined.

Lemma C7_color_name_from_table_sample :
  exists rows,
    main_extract sample_repr [page_one; page_two] = Ok rows
    /\ (forall r, In r rows ->
        row_color_name r = color_label (classify (row_color_hex r))
        /\ exists a, rgb_to_hex sample_repr (stroke_of a) = Ok (row_color_hex r))
    /\ classify not_specified = Other
    /\ (forall sq, classify (str_of_seq sample_repr sq) = Other)
    /\ (forall hex, ci_eqb hex (lit "#FF0000") = false ->
          ci_eqb hex (lit "#0000FF") = false ->
          ci_eqb hex (lit "#000000") = false -> classify hex = Other).
Proof.
  eexists. split; [vm_compute; reflexivity|].
  apply (C7_color_name_from_table sample_repr [page_one; page_two]).
  vm_compute. reflexivity.
Defined.

(** The two-page scenario of the specification: one red comment on a page
    with the drawing number A-101, one comment without colour on a page
    without text. *)
Example two_page_document :
  main_extract sample_repr [page_one; page_two]
  = Ok [mk_row 1 (lit "A-101") (lit "Fix wall") (lit "Sato") [] (lit "赤") (lit "#ff0000");
        mk_row 2 unreadable (lit "Check door") [] [] (lit "その他") not_specified].
Proof. vm_compute. reflexivity. Qed.

(** Blank blocks are left out of the selection, wherever they lie. *)
Example blank_block_ignored :
  select_drawing_number [blk_blank] = Ok unreadable
  /\ select_drawing_number [blk_blank; blk_scale; blk_left; blk_title; blk_twin]
     = Ok (lit "A-101").
Proof. split; vm_compute; reflexivity. Qed.

(** * Further properties of the code *)

(** ** [rgb_to_hex] beyond normalized colours *)

Lemma hex_digits_not_nil (fuel : nat) (n : Z) : hex_digits (S fuel) n <> [].
Proof.
  cbn [hex_digits]. destruct (n <? 16); [discriminate|].
  intros H. apply app_eq_nil in H. destruct H as [_ H]. discriminate H.
Qed.

Lemma zero_pad_length (width : nat) (s : pystr) :
  List.length (zero_pad width s) = Nat.max width (List.length s).
Proof.
  unfold zero_pad, pystr, codepoint in *. rewrite length_app, repeat_length. lia.
Qed.

Lemma to_hex_length_pos (n : Z) : (1 <= List.length (to_hex n))%nat.
Proof.
  unfold to_hex. pose proof (hex_digits_not_nil (Z.to_nat (Z.log2 n)) n) as H.
  destruct (hex_digits (S (Z.to_nat (Z.log2 n))) n); [congruence | simpl; lia].
Qed.

Lemma format_02x_length (n : Z) : (2 <= List.length (format_02x n))%nat.
Proof.
  unfold format_02x. destruct (n <? 0).
  - cbn [List.length]. rewrite zero_pad_length.
    pose proof (to_hex_length_pos (- n)). lia.
  - rewrite zero_pad_length. lia.
Qed.

Lemma format_02x_negative (n : Z) :
  n < 0 -> exists t, format_02x n = 0x2D%N :: t.
Proof.
  intros Hn. unfold format_02x.
  replace (n <? 0) with true by (symmetry; apply Z.ltb_lt; exact Hn). eauto.
Qed.

Lemma hex_digits_step (fuel : nat) (n : Z) :
  hex_digits (S fuel) n
  = if n <? 16 then [hex_digit n]
    else hex_digits fuel (n / 16) ++ [hex_digit (n mod 16)].
Proof. reflexivity. Qed.

Lemma hex_digits_length_pos (fuel : nat) (n : Z) :
  (1 <= List.length (hex_digits (S fuel) n))%nat.
Proof.
  pose proof (hex_digits_not_nil fuel n) as H.
  destruct (hex_digits (S fuel) n); [congruence | simpl; lia].
Qed.

Lemma format_02x_large (n : Z) : 255 < n -> (3 <= List.length (format_02x n))%nat.
Proof.
  intros Hn. unfold format_02x.
  replace (n <? 0) with false by (symmetry; apply Z.ltb_ge; lia).
  rewrite zero_pad_length.
  assert (Hlog : 8 <= Z.log2 n) by (apply Z.log2_le_pow2; [lia | simpl; lia]).
  unfold to_hex.
  destruct (Z.to_nat (Z.log2 n)) as [|[|f]] eqn:Hf; try lia.
  rewrite (hex_digits_step (S (S f)) n).
  replace (n <? 16) with false by (symmetry; apply Z.ltb_ge; lia).
  assert (16 <= n / 16) by (apply Z.div_le_lower_bound; lia).
  rewrite (hex_digits_step (S f) (n / 16)).
  replace (n / 16 <? 16) with false by (symmetry; apply Z.ltb_ge; lia).
  eapply Nat.le_trans; [|apply Nat.le_max_r].
  rewrite !length_app. cbn [List.length].
  pose proof (hex_digits_length_pos f (n / 16 / 16)) as Hpos.
  unfold pystr, codepoint in *. lia.
Qed.

Lemma lower_hex_digit_is_hex_digit (c : codepoint) :
  is_lower_hex_digit c = true -> is_hex_digit c = true.
Proof.
  unfold is_lower_hex_digit, is_hex_digit. intros H. rewrite H. reflexivity.
Qed.

(** A formatted integer that is two hexadecimal digits is a byte. *)
Lemma format_02x_two_digits (n : Z) :
  List.length (format_02x n) = 2%nat ->
  forallb is_hex_digit (format_02x n) = true ->
  0 <= n <= 255.
Proof.
  intros Hlen Hhex.
  destruct (Z_lt_ge_dec n 0) as [Hneg|Hpos].
  - destruct (format_02x_negative n Hneg) as [t Ht]. rewrite Ht in Hhex.
    discriminate Hhex.
  - destruct (Z_le_gt_dec n 255) as [Hle|Hgt]; [lia|].
    pose proof (format_02x_large n ltac:(lia)). lia.
Qed.

Section ColorEdges.
Variable float_repr : float -> pystr.

(** X1. A one-channel colour gets the code of the three-channel colour
    that repeats the channel, also when the conversion raises. *)
Theorem gray_is_replicated_rgb (k k' : seq_kind) (c : float) :
  rgb_to_hex float_repr (Some (mk_pyseq k [c]))
  = rgb_to_hex float_repr (Some (mk_pyseq k' [c; c; c])).
Proof.
  unfold rgb_to_hex. cbn [seq_items list_comprehension].
  destruct (to_int (mul c f255)) as [v|e]; reflexivity.
Qed.

(** X2. No clamping: for a three-channel colour whose channels convert to
    the integers [r], [g], [b], the result is a hex code exactly when the
    three integers are bytes. *)
Theorem rgb_to_hex_code_iff_bytes (k : seq_kind) (c1 c2 c3 : float) (r g b : Z) :
  to_int (mul c1 f255) = Ok r ->
  to_int (mul c2 f255) = Ok g ->
  to_int (mul c3 f255) = Ok b ->
  exists h,
    rgb_to_hex float_repr (Some (mk_pyseq k [c1; c2; c3])) = Ok h
    /\ (is_hex_code h = true <-> 0 <= r <= 255 /\ 0 <= g <= 255 /\ 0 <= b <= 255).
Proof.
  intros Hr Hg Hb. unfold rgb_to_hex. cbn [seq_items list_comprehension].
  rewrite Hr, Hg, Hb. cbn [bind]. eexists. split; [reflexivity|].
  change (lit "#") with [0x23%N]. cbn [app is_hex_code]. rewrite N.eqb_refl.
  cbn [andb]. rewrite !length_app, !forallb_app.
  pose proof (format_02x_length r) as Lr. pose proof (format_02x_length g) as Lg.
  pose proof (format_02x_length b) as Lb.
  split.
  - intros H. apply andb_prop in H. destruct H as [Hlen Hhex].
    apply Nat.eqb_eq in Hlen.
    apply andb_prop in Hhex. destruct Hhex as [Hhr Hhex].
    apply andb_prop in Hhex. destruct Hhex as [Hhg Hhb].
    repeat split; (apply format_02x_two_digits; [lia | assumption]).
  - intros [Hrr [Hgr Hbr]].
    destruct (format_02x_byte r Hrr) as [r1 [r2 [-> [Hr1 Hr2]]]].
    destruct (format_02x_byte g Hgr) as [g1 [g2 [-> [Hg1 Hg2]]]].
    destruct (format_02x_byte b Hbr) as [b1 [b2 [-> [Hb1 Hb2]]]].
    cbn. now rewrite !lower_hex_digit_is_hex_digit.
Qed.

(** X3. [rgb_to_hex] raises exactly when a channel does not convert, and
    then with the exception of the first such channel, whatever the number
    of channels. *)
Theorem rgb_to_hex_raises_iff (sq : pyseq) (e : exn) :
  rgb_to_hex float_repr (Some sq) = Raise e
  <-> exists pre c post,
        seq_items sq = pre ++ c :: post
        /\ (forall c', In c' pre -> exists v, to_int (mul c' f255) = Ok v)
        /\ to_int (mul c f255) = Raise e.
Proof.
  assert (Hcomp : forall cs,
            list_comprehension (fun c => to_int (mul c f255)) cs = Raise e
            <-> exists pre c post,
                  cs = pre ++ c :: post
                  /\ (forall c', In c' pre -> exists v, to_int (mul c' f255) = Ok v)
                  /\ to_int (mul c f255) = Raise e).
  { induction cs as [|c cs IH]; cbn [list_comprehension].
    - split; [discriminate|]. intros [pre [c [post [H _]]]].
      now destruct pre.
    - destruct (to_int (mul c f255)) as [v|e'] eqn:Hc; cbn [bind].
      + split.
        * intros H.
          assert (Hcs : list_comprehension (fun c => to_int (mul c f255)) cs = Raise e)
            by (destruct (list_comprehension _ cs); [discriminate | exact H]).
          apply IH in Hcs. destruct Hcs as [pre [c0 [post [-> [Hpre Hc0]]]]].
          exists (c :: pre), c0, post. split; [reflexivity|]. split; [|exact Hc0].
          intros c' [<-|Hc']; [eauto | auto].
        * intros [pre [c0 [post [Heq [Hpre Hc0]]]]].
          destruct pre as [|p pre]; cbn [app] in Heq; injection Heq as -> ->;
            [congruence|].
          assert (Hcs : list_comprehension (fun c => to_int (mul c f255))
                          (pre ++ c0 :: post) = Raise e).
          { apply IH. exists pre, c0, post. split; [reflexivity|].
            split; [|exact Hc0]. intros c' Hc'. apply Hpre. now right. }
          now rewrite Hcs.
      + split.
        * intros H. injection H as ->. exists [], c, cs. split; [reflexivity|].
          split; [intros c' []|exact Hc].
        * intros [pre [c0 [post [Heq [Hpre Hc0]]]]].
          destruct pre as [|p pre]; cbn [app] in Heq; injection Heq as -> ->.
          -- congruence.
          -- destruct (Hpre _ (or_introl eq_refl)) as [v Hv]. congruence. }
  unfold rgb_to_hex. destruct (seq_items sq) as [|c cs] eqn:Hitems.
  - split; [discriminate|]. intros [pre [c [post [H _]]]]. now destruct pre.
  - rewrite <- (Hcomp (c :: cs)).
    destruct (list_comprehension (fun c0 => to_int (mul c0 f255)) (c :: cs))
      as [rgb|e']; cbn [bind].
    + split; [|discriminate]. destruct rgb as [|r [|g [|b [|x rgb]]]]; discriminate.
    + split; intros H; injection H as ->; reflexivity.
Qed.
End ColorEdges.

(** ** The colour code read back *)

Lemma byte_round_trip_table : forallb byte_round_trip (map Z.of_nat (seq 0 256)) = true.
Proof. vm_compute. reflexivity. Qed.

Lemma format_02x_decodes (n : Z) :
  0 <= n <= 255 ->
  exists d1 d2, format_02x n = [d1; d2] /\ hex_pair_value d1 d2 = Some n.
Proof.
  intros Hn.
  assert (Hin : In n (map Z.of_nat (seq 0 256))).
  { apply in_map_iff. exists (Z.to_nat n). split; [lia|]. apply in_seq. lia. }
  pose proof (proj1 (forallb_forall _ _) byte_round_trip_table n Hin) as Hok.
  unfold byte_round_trip in Hok.
  destruct (format_02x n) as [|d1 [|d2 [|d3 ds]]]; try discriminate.
  exists d1, d2. split; [reflexivity|].
  destruct (hex_pair_value d1 d2) as [v|]; [|discriminate].
  apply Z.eqb_eq in Hok. now subst.
Qed.

Ltac eval_N_tests :=
  repeat match goal with
         | |- context [(?a <=? ?b)%N] =>
             first [ replace (a <=? b)%N with true by (symmetry; apply N.leb_le; lia)
                   | replace (a <=? b)%N with false by (symmetry; apply N.leb_gt; lia)
                   | destruct (N.leb_spec a b) ]
         | |- context [(?a =? ?b)%N] =>
             first [ replace (a =? b)%N with true by (symmetry; apply N.eqb_eq; lia)
                   | replace (a =? b)%N with false by (symmetry; apply N.eqb_neq; lia)
                   | destruct (N.eqb_spec a b) ]
         end.

(** The three ways in which two characters match without regard to case. *)
Lemma char_ci_eqb_cases (c d : codepoint) :
  char_ci_eqb c d = true ->
  c = d
  \/ ((0x41 <= c <= 0x5A)%N /\ d = (c + 0x20)%N)
  \/ ((0x61 <= c <= 0x7A)%N /\ c = (d + 0x20)%N).
Proof.
  unfold char_ci_eqb, is_ascii_upper, is_ascii_lower. intros H.
  apply orb_prop in H. destruct H as [H|H]; [apply orb_prop in H; destruct H as [H|H]|].
  - left. now apply N.eqb_eq.
  - right. left. apply andb_prop in H. destruct H as [Hu Hd].
    apply andb_prop in Hu. destruct Hu as [H1 H2].
    apply N.leb_le in H1, H2. apply N.eqb_eq in Hd. auto.
  - right. right. apply andb_prop in H. destruct H as [Hu Hd].
    apply andb_prop in Hu. destruct Hu as [H1 H2].
    apply N.leb_le in H1, H2. apply N.eqb_eq in Hd. auto.
Qed.

(** Reading a digit does not depend on the case of a letter. *)
Lemma hex_digit_value_ci (c d : codepoint) :
  char_ci_eqb c d = true -> hex_digit_value c = hex_digit_value d.
Proof.
  intros H. destruct (char_ci_eqb_cases c d H) as [->|[[Hc ->]|[Hc ->]]];
    [reflexivity| |];
    unfold hex_digit_value; eval_N_tests; cbn [andb orb]; try reflexivity;
    f_equal; lia.
Qed.

Lemma decode_hex_code_ci (a b : pystr) :
  ci_eqb a b = true -> decode_hex_code a = decode_hex_code b.
Proof.
  intros H.
  assert (Hlen : List.length a = List.length b).
  { revert b H. induction a as [|c a IH]; intros [|d b] H; try discriminate; [reflexivity|].
    simpl in H. apply andb_prop in H. simpl. f_equal. now apply IH. }
  destruct a as [|a0 [|a1 [|a2 [|a3 [|a4 [|a5 [|a6 [|a7 a]]]]]]]];
    destruct b as [|b0 [|b1 [|b2 [|b3 [|b4 [|b5 [|b6 [|b7 b]]]]]]]];
    try discriminate Hlen; try reflexivity.
  cbn [ci_eqb] in H.
  repeat match type of H with
         | (_ && _)%bool = true =>
             let H1 := fresh "Hc" in
             apply andb_prop in H; destruct H as [H1 H]
         end.
  unfold decode_hex_code, hex_pair_value.
  rewrite (hex_digit_value_ci a1 b1), (hex_digit_value_ci a2 b2),
    (hex_digit_value_ci a3 b3), (hex_digit_value_ci a4 b4),
    (hex_digit_value_ci a5 b5), (hex_digit_value_ci a6 b6) by assumption.
  replace (a0 =? 35)%N with (b0 =? 35)%N; [reflexivity|].
  destruct (char_ci_eqb_cases a0 b0 Hc) as [->|[[Ha ->]|[Ha ->]]];
    [reflexivity| |]; eval_N_tests; reflexivity.
Qed.

Section ColorReadBack.
Variable float_repr : float -> pystr.

Lemma rgb_code_decodes (k : seq_kind) (c1 c2 c3 : float) (r g b : Z) :
  to_int (mul c1 f255) = Ok r -> to_int (mul c2 f255) = Ok g ->
  to_int (mul c3 f255) = Ok b ->
  0 <= r <= 255 -> 0 <= g <= 255 -> 0 <= b <= 255 ->
  exists h, rgb_to_hex float_repr (Some (mk_pyseq k [c1; c2; c3])) = Ok h
            /\ decode_hex_code h = Some (r, g, b).
Proof.
  intros Hr Hg Hb Rr Rg Rb.
  unfold rgb_to_hex. cbn [seq_items list_comprehension].
  rewrite Hr, Hg, Hb. cbn [bind]. eexists. split; [reflexivity|].
  destruct (format_02x_decodes r Rr) as [r1 [r2 [-> Vr]]].
  destruct (format_02x_decodes g Rg) as [g1 [g2 [-> Vg]]].
  destruct (format_02x_decodes b Rb) as [b1 [b2 [-> Vb]]].
  change (lit "#") with [0x23%N]. cbn [app decode_hex_code].
  rewrite N.eqb_refl, Vr, Vg, Vb. reflexivity.
Qed.

Lemma gray_code_decodes (k : seq_kind) (c : float) (v : Z) :
  to_int (mul c f255) = Ok v -> 0 <= v <= 255 ->
  exists h, rgb_to_hex float_repr (Some (mk_pyseq k [c])) = Ok h
            /\ decode_hex_code h = Some (v, v, v).
Proof.
  intros Hv Rv.
  unfold rgb_to_hex. cbn [seq_items list_comprehension].
  rewrite Hv. cbn [bind]. eexists. split; [reflexivity|].
  destruct (format_02x_decodes v Rv) as [v1 [v2 [-> Vv]]].
  change (lit "#") with [0x23%N]. cbn [app decode_hex_code].
  rewrite N.eqb_refl, Vv. reflexivity.
Qed.

(** X4. Round trip: the code of a colour of one or three channels, each a
    number of the interval [0, 1], spells the bytes the channels convert
    to: three bytes for three channels, one byte three times for one. *)
Theorem hex_code_round_trip (sq : pyseq) :
  (List.length (seq_items sq) = 1 \/ List.length (seq_items sq) = 3)%nat ->
  Forall in_unit_interval (seq_items sq) ->
  exists rgb h r g b,
    list_comprehension (fun c => to_int (mul c f255)) (seq_items sq) = Ok rgb
    /\ rgb_to_hex float_repr (Some sq) = Ok h
    /\ decode_hex_code h = Some (r, g, b)
    /\ (rgb = [r; g; b] \/ (rgb = [r] /\ g = r /\ b = r)).
Proof.
  intros Hlen Hunit. destruct sq as [k items]. cbn [seq_items] in *.
  destruct (channels_convert _ Hunit) as [rgb [Hrgb [Hl Hall]]].
  exists rgb. rewrite Hrgb.
  destruct items as [|c1 [|c2 [|c3 [|c4 items]]]]; simpl in Hlen; try lia;
    destruct rgb as [|r [|g [|b [|x rgb]]]]; simpl in Hl; try lia;
    cbn [list_comprehension] in Hrgb.
  - destruct (to_int (mul c1 f255)) as [v|] eqn:Hv; [|discriminate].
    cbn [bind] in Hrgb. injection Hrgb as ->.
    inversion Hall as [|? ? Rv _]; subst.
    destruct (gray_code_decodes k c1 r Hv Rv) as [h [Hh Hd]].
    exists h, r, r, r. split; [reflexivity|]. split; [exact Hh|].
    split; [exact Hd|]. right. auto.
  - destruct (to_int (mul c1 f255)) as [v1|] eqn:Hv1; [|discriminate].
    destruct (to_int (mul c2 f255)) as [v2|] eqn:Hv2; [|discriminate].
    destruct (to_int (mul c3 f255)) as [v3|] eqn:Hv3; [|discriminate].
    cbn [bind] in Hrgb. injection Hrgb as -> -> ->.
    inversion Hall as [|? ? Rr Hall']; subst.
    inversion Hall' as [|? ? Rg Hall'']; subst.
    inversion Hall'' as [|? ? Rb _]; subst.
    destruct (rgb_code_decodes k c1 c2 c3 r g b Hv1 Hv2 Hv3 Rr Rg Rb) as [h [Hh Hd]].
    exists h, r, g, b. split; [reflexivity|]. split; [exact Hh|].
    split; [exact Hd|]. left. reflexivity.
Qed.

(** X5. Only the three pure colours are named: for a three-channel colour
    whose channels convert to the bytes [r], [g], [b], the name is red
    exactly for (255, 0, 0), blue exactly for (0, 0, 255), black exactly
    for (0, 0, 0), and "other" for every other triple. *)
Theorem color_name_by_bytes (k : seq_kind) (c1 c2 c3 : float) (r g b : Z) :
  to_int (mul c1 f255) = Ok r -> to_int (mul c2 f255) = Ok g ->
  to_int (mul c3 f255) = Ok b ->
  0 <= r <= 255 -> 0 <= g <= 255 -> 0 <= b <= 255 ->
  exists h,
    rgb_to_hex float_repr (Some (mk_pyseq k [c1; c2; c3])) = Ok h
    /\ (color_name_of h = lit "赤" <-> (r, g, b) = (255, 0, 0))
    /\ (color_name_of h = lit "青" <-> (r, g, b) = (0, 0, 255))
    /\ (color_name_of h = lit "黒" <-> (r, g, b) = (0, 0, 0))
    /\ (color_name_of h = lit "その他" <->
        (r, g, b) <> (255, 0, 0) /\ (r, g, b) <> (0, 0, 255) /\ (r, g, b) <> (0, 0, 0)).
Proof.
  intros Hr Hg Hb Rr Rg Rb.
  destruct (rgb_code_decodes k c1 c2 c3 r g b Hr Hg Hb Rr Rg Rb) as [h [Hh Hdec]].
  exists h. split; [exact Hh|].
  rewrite color_name_of_classify.
  assert (Hred : ci_eqb h (lit "#FF0000") = true <-> (r, g, b) = (255, 0, 0)).
  { split.
    - intros H. apply decode_hex_code_ci in H. rewrite Hdec in H.
      vm_compute in H. congruence.
    - intros H. injection H as -> -> ->.
      unfold rgb_to_hex in Hh. cbn [seq_items list_comprehension] in Hh.
      rewrite Hr, Hg, Hb in Hh. cbn [bind] in Hh. injection Hh as <-.
      vm_compute. reflexivity. }
  assert (Hblue : ci_eqb h (lit "#0000FF") = true <-> (r, g, b) = (0, 0, 255)).
  { split.
    - intros H. apply decode_hex_code_ci in H. rewrite Hdec in H.
      vm_compute in H. congruence.
    - intros H. injection H as -> -> ->.
      unfold rgb_to_hex in Hh. cbn [seq_items list_comprehension] in Hh.
      rewrite Hr, Hg, Hb in Hh. cbn [bind] in Hh. injection Hh as <-.
      vm_compute. reflexivity. }
  assert (Hblack : ci_eqb h (lit "#000000") = true <-> (r, g, b) = (0, 0, 0)).
  { split.
    - intros H. apply decode_hex_code_ci in H. rewrite Hdec in H.
      vm_compute in H. congruence.
    - intros H. injection H as -> -> ->.
      unfold rgb_to_hex in Hh. cbn [seq_items list_comprehension] in Hh.
      rewrite Hr, Hg, Hb in Hh. cbn [bind] in Hh. injection Hh as <-.
      vm_compute. reflexivity. }
  assert (Hlabels : lit "赤" <> lit "青" /\ lit "赤" <> lit "黒" /\ lit "赤" <> lit "その他"
                    /\ lit "青" <> lit "黒" /\ lit "青" <> lit "その他"
                    /\ lit "黒" <> lit "その他")
    by (repeat split; vm_compute; discriminate).
  destruct Hlabels as [L1 [L2 [L3 [L4 [L5 L6]]]]].
  unfold classify, color_table. cbn [classify_in].
  destruct (ci_eqb h (lit "#FF0000")) eqn:E1;
    [|destruct (ci_eqb h (lit "#0000FF")) eqn:E2;
      [|destruct (ci_eqb h (lit "#000000")) eqn:E3]];
    cbn [color_label];
    repeat match goal with
           | H : true = true <-> _ |- _ => pose proof (proj1 H eq_refl); clear H
           | H : false = true <-> ?P |- _ =>
               assert (~ P) by (intros X; apply H in X; discriminate X); clear H
           | H : _ = true <-> _ |- _ => clear H
           end;
    repeat split; intros X;
    first [ assumption | reflexivity | congruence
          | (destruct X as [X1 [X2 X3]]; congruence)
          | (repeat split; congruence) ].
Qed.
End ColorReadBack.

(** ** The drawing number beyond the head of the sort *)

Lemma lstrip_suffix (s : pystr) : exists p, s = p ++ lstrip s.
Proof.
  induction s as [|c s [p Hp]]; [now exists []|].
  cbn [lstrip]. destruct (isspace c).
  - exists (c :: p). cbn [app]. now f_equal.
  - now exists [].
Qed.

Lemma lstrip_head (s t : pystr) (c : codepoint) :
  lstrip s = c :: t -> isspace c = false.
Proof.
  induction s as [|d s IH]; cbn [lstrip]; [discriminate|].
  destruct (isspace d) eqn:Hd; [exact IH|].
  intros H. injection H as <- _. exact Hd.
Qed.

Lemma strip_head (s t : pystr) (c : codepoint) :
  strip s = c :: t -> isspace c = false.
Proof.
  unfold strip, rstrip. intros H.
  destruct (lstrip_suffix (rev (lstrip s))) as [p Hp].
  apply (f_equal (@rev codepoint)) in Hp.
  rewrite rev_involutive, rev_app_distr, H in Hp.
  cbn [app] in Hp. now apply lstrip_head in Hp.
Qed.

Lemma strip_last (s t : pystr) (c : codepoint) :
  strip s = t ++ [c] -> isspace c = false.
Proof.
  unfold strip, rstrip. intros H.
  apply (f_equal (@rev codepoint)) in H.
  rewrite rev_involutive, rev_app_distr in H. cbn [rev app] in H.
  now apply lstrip_head in H.
Qed.

Lemma isspace_not_newline (c : codepoint) :
  isspace c = false -> negb (c =? newline)%N = true.
Proof.
  intros H. destruct (N.eqb_spec c newline) as [->|]; [discriminate H | reflexivity].
Qed.

(** X6. When a block has text, the drawing number returned is not empty
    and begins and ends with a character that is not whitespace. *)
Theorem drawing_number_trimmed (blocks : list Block) (b : Block) :
  In b blocks -> nonblank b = true ->
  exists s first last,
    select_drawing_number blocks = Ok s
    /\ hd_error s = Some first /\ isspace first = false
    /\ hd_error (rev s) = Some last /\ isspace last = false.
Proof.
  intros Hb Hnb.
  destruct (sorted_candidates_head blocks b Hb Hnb) as [w [rest [_ [_ [Hnw Hc]]]]].
  rewrite select_drawing_number_sorted, Hc. cbn [cand_text candidate_of].
  rewrite replace_newline_filter.
  unfold nonblank in Hnw.
  destruct (strip (blk_text w)) as [|c t] eqn:Hs; [discriminate Hnw|].
  pose proof (strip_head _ _ _ Hs) as Hc1.
  assert (Hlast : exists t' d, c :: t = t' ++ [d])
    by (destruct (exists_last (l := c :: t) ltac:(discriminate)) as [t' [d Hd]]; eauto).
  destruct Hlast as [t' [d Hd]].
  assert (Hd1 : isspace d = false) by (apply (strip_last (blk_text w) t'); congruence).
  eexists _, c, d. split; [reflexivity|].
  split; [cbn [filter]; now rewrite (isspace_not_newline c Hc1)|].
  split; [exact Hc1|]. split; [|exact Hd1].
  rewrite Hd, filter_app. cbn [filter]. rewrite (isspace_not_newline d Hd1).
  now rewrite rev_app_distr.
Qed.

Lemma filter_idempotent {A : Type} (f : A -> bool) (l : list A) :
  filter f (filter f l) = filter f l.
Proof.
  induction l as [|x l IH]; [reflexivity|]. cbn [filter].
  destruct (f x) eqn:Hx; [|exact IH]. cbn [filter]. now rewrite Hx, IH.
Qed.

(** X7. Blocks that are empty after trimming have no part in the
    selection: the result is that of the blocks with text alone. *)
Theorem blank_blocks_have_no_part (blocks : list Block) :
  select_drawing_number blocks = select_drawing_number (filter nonblank blocks).
Proof.
  rewrite !select_drawing_number_sorted, !collect_candidates_filter.
  now rewrite filter_idempotent.
Qed.

(** X8. The order of the blocks matters for ties only: two sequences with
    the same blocks, in which blocks with text of the same key have the
    same trimmed text, give the same drawing number. *)
Theorem selection_order_independent (blocks blocks' : list Block) :
  (forall b, In b blocks -> nonblank b = true -> key_ok (block_key b)) ->
  (forall b, In b blocks <-> In b blocks') ->
  (forall b c, In b blocks -> In c blocks ->
     nonblank b = true -> nonblank c = true ->
     key_same (block_key b) (block_key c) = true ->
     strip (blk_text b) = strip (blk_text c)) ->
  select_drawing_number blocks = select_drawing_number blocks'.
Proof.
  intros Hok Hsame Htext.
  destruct (filter nonblank blocks) as [|b0 l0] eqn:Hf.
  - assert (Hblank : forall b, In b blocks -> nonblank b = false).
    { intros b Hb. destruct (nonblank b) eqn:Hnb; [|reflexivity].
      assert (Hin : In b (filter nonblank blocks)) by (apply filter_In; auto).
      rewrite Hf in Hin. destruct Hin. }
    rewrite !select_drawing_number_sorted, !sorted_candidates.
    rewrite (filter_nonblank_nil blocks Hblank).
    rewrite (filter_nonblank_nil blocks'); [reflexivity|].
    intros b Hb. apply Hblank. now apply Hsame.
  - assert (Hb0 : In b0 blocks /\ nonblank b0 = true)
      by (apply filter_In; rewrite Hf; now left).
    destruct Hb0 as [Hb0 Hnb0].
    destruct (sorted_candidates_head blocks b0 Hb0 Hnb0)
      as [w [rest [Hs [Hw [Hnw Hc]]]]].
    destruct (sorted_candidates_head blocks' b0 (proj1 (Hsame b0) Hb0) Hnb0)
      as [w' [rest' [Hs' [Hw' [Hnw' Hc']]]]].
    assert (Hok' : forall b, In b blocks' -> nonblank b = true -> key_ok (block_key b))
      by (intros b Hb; apply Hok; now apply Hsame).
    apply Hsame in Hw'.
    pose proof (winner_max blocks w rest Hok Hs w' Hw' Hnw') as H1.
    pose proof (winner_max blocks' w' rest' Hok' Hs' w (proj1 (Hsame w) Hw) Hnw) as H2.
    assert (Hkey : key_same (block_key w) (block_key w') = true).
    { destruct (key_same (block_key w) (block_key w')) eqn:Hk; [reflexivity|].
      rewrite (key_lt_total _ _ (Hok w Hw Hnw) (Hok w' Hw' Hnw') H2 Hk) in H1.
      discriminate H1. }
    rewrite !select_drawing_number_sorted, Hc, Hc'. cbn [cand_text candidate_of].
    now rewrite (Htext w w' Hw Hw' Hnw Hnw' Hkey).
Qed.

(** ** The page loop and the report of [main] *)

Lemma for_each_app {S A : Type} (body : S -> A -> result S) (xs ys : list A) (s : S) :
  for_each body (xs ++ ys) s = (s' <- for_each body xs s ;; for_each body ys s').
Proof.
  revert s. induction xs as [|x xs IH]; intros s; cbn [app for_each bind]; [reflexivity|].
  destruct (body s x) as [s1|e]; cbn [bind]; [apply IH | reflexivity].
Qed.

Lemma for_each_raise_inv {S A : Type} (body : S -> A -> result S) (xs : list A)
    (s : S) (e : exn) :
  for_each body xs s = Raise e ->
  exists pre x post s',
    xs = pre ++ x :: post /\ for_each body pre s = Ok s' /\ body s' x = Raise e.
Proof.
  revert s. induction xs as [|x xs IH]; intros s H; cbn [for_each] in H; [discriminate|].
  destruct (body s x) as [s1|e'] eqn:Hb; cbn [bind] in H.
  - destruct (IH s1 H) as [pre [y [post [s' [-> [Hpre Hy]]]]]].
    exists (x :: pre), y, post, s'. split; [reflexivity|]. split; [|exact Hy].
    cbn [for_each]. rewrite Hb. exact Hpre.
  - injection H as ->. exists [], x, xs, s. auto.
Qed.

Lemma enumerate_from_app {A : Type} (i0 : Z) (l l' : list A) :
  enumerate_from i0 (l ++ l')
  = enumerate_from i0 l ++ enumerate_from (i0 + Z.of_nat (List.length l)) l'.
Proof.
  revert i0. induction l as [|x l IH]; intros i0; cbn [app enumerate_from List.length].
  - now rewrite Z.add_0_r.
  - rewrite IH. do 3 f_equal. lia.
Qed.

Lemma enumerate_from_In {A : Type} (l : list A) (i0 j : Z) (x : A) :
  In (j, x) (enumerate_from i0 l) ->
  i0 <= j < i0 + Z.of_nat (List.length l) /\ In x l.
Proof.
  revert i0. induction l as [|y l IH]; intros i0 H; [destruct H|].
  cbn [enumerate_from List.length] in *. destruct H as [H|H].
  - injection H as <- <-. split; [lia | now left].
  - destruct (IH _ H) as [Hr Hin]. split; [lia | now right].
Qed.


Lemma Forall2_In_left {A B : Type} (R : A -> B -> Prop) (l : list A) (l' : list B) :
  Forall2 R l l' -> forall x, In x l -> exists y, In y l' /\ R x y.
Proof.
  induction 1 as [|x y l l' Hxy _ IH]; intros z Hz; [destruct Hz|].
  destruct Hz as [<-|Hz].
  - exists y. split; [now left | assumption].
  - destruct (IH z Hz) as [y' [Hy' Hr]]. exists y'. split; [now right | assumption].
Qed.

Lemma surviving_In (doc : list Page) (i : Z) (p : Page) (a : Annot) :
  In (i, p, a) (surviving doc)
  <-> In (i, p) (enumerate doc) /\ In a (page_annots p) /\ has_content a = true.
Proof.
  unfold surviving. rewrite in_flat_map. split.
  - intros [[i' p'] [Hip Ha]]. apply in_map_iff in Ha.
    destruct Ha as [a' [Heq Ha']]. cbn [fst snd] in *. injection Heq as -> -> ->.
    apply filter_In in Ha'. tauto.
  - intros [Hip [Ha Hc]]. exists (i, p). split; [exact Hip|].
    apply in_map_iff. exists a. split; [reflexivity|]. apply filter_In. auto.
Qed.

Section Report.
Variable float_repr : float -> pystr.

Lemma annot_step_raise (i : Z) (drawing_no : pystr) (acc : list Row) (a : Annot) (e : exn) :
  annot_step float_repr i drawing_no acc a = Raise e ->
  has_content a = true /\ rgb_to_hex float_repr (stroke_of a) = Raise e.
Proof.
  unfold annot_step, has_content, stroke_of.
  destruct (dict_get (annot_info a) "content") as [content|]; [|discriminate].
  destruct (is_empty content); [discriminate|].
  destruct (rgb_to_hex float_repr (dict_get (annot_colors a) "stroke")) as [h|e'];
    cbn [bind]; [discriminate|].
  intros H. injection H as ->. auto.
Qed.

(** X9. The extraction has no handler: it raises exactly when the stroke
    colour of some annotation with content cannot be converted, with the
    exception of that conversion. The colours of annotations without
    content are never looked at. *)
Theorem main_extract_raises_iff (doc : list Page) :
  (forall e, main_extract float_repr doc = Raise e ->
     exists i p a, In (i, p, a) (surviving doc)
                   /\ rgb_to_hex float_repr (stroke_of a) = Raise e)
  /\ (forall i p a e, In (i, p, a) (surviving doc) ->
        rgb_to_hex float_repr (stroke_of a) = Raise e ->
        exists e', main_extract float_repr doc = Raise e').
Proof.
  split.
  - intros e H. unfold main_extract in H.
    destruct (for_each_raise_inv _ _ _ _ H) as [pre [[i p] [post [s' [Hdoc [_ Hstep]]]]]].
    unfold page_step in Hstep.
    destruct (get_drawing_number_returns p (page_width p) (page_height p)) as [dn Hdn].
    rewrite Hdn in Hstep. cbn [bind] in Hstep.
    destruct (for_each_raise_inv _ _ _ _ Hstep) as [pre' [a [post' [s'' [Han [_ Ha]]]]]].
    apply annot_step_raise in Ha. destruct Ha as [Hc Hraise].
    exists i, p, a. split; [|exact Hraise].
    apply surviving_In. split; [rewrite Hdoc; apply in_elt|].
    split; [rewrite Han; apply in_elt | exact Hc].
  - intros i p a e Hin Hraise.
    destruct (main_extract float_repr doc) as [rows|e'] eqn:Hm; [exfalso | eauto].
    unfold main_extract, enumerate in Hm.
    destruct (page_loop_spec float_repr _ _ _ _ Hm) as [new [_ Hnew]].
    destruct (Forall2_In_left _ _ _ Hnew _ Hin) as [r [_ [dn [_ Hb]]]].
    destruct Hb as [_ [_ [_ [Hhex _]]]]. congruence.
Qed.



Lemma annot_step_acc (i : Z) (drawing_no : pystr) (acc : list Row) (a : Annot) :
  annot_step float_repr i drawing_no acc a
  = (new <- annot_step float_repr i drawing_no [] a ;; Ok (acc ++ new)).
Proof.
  unfold annot_step.
  destruct (dict_get (annot_info a) "content") as [content|];
    [|cbn [bind]; now rewrite app_nil_r].
  destruct (is_empty content); [cbn [bind]; now rewrite app_nil_r|].
  destruct (rgb_to_hex float_repr (dict_get (annot_colors a) "stroke")); reflexivity.
Qed.

Lemma annot_loop_acc (i : Z) (drawing_no : pystr) (annots : list Annot) (acc : list Row) :
  for_each (annot_step float_repr i drawing_no) annots acc
  = (new <- for_each (annot_step float_repr i drawing_no) annots [] ;; Ok (acc ++ new)).
Proof.
  revert acc. induction annots as [|a annots IH]; intros acc; cbn [for_each].
  - cbn [bind]. now rewrite app_nil_r.
  - rewrite (annot_step_acc i drawing_no acc a).
    destruct (annot_step float_repr i drawing_no [] a) as [new1|e]; cbn [bind];
      [|reflexivity].
    rewrite (IH (acc ++ new1)), (IH new1).
    destruct (for_each (annot_step float_repr i drawing_no) annots []); cbn [bind];
      [now rewrite app_assoc | reflexivity].
Qed.

Lemma page_loop_acc (pages : list Page) (i0 : Z) (acc : list Row) :
  for_each (page_step float_repr) (enumerate_from i0 pages) acc
  = (new <- rows_of_pages float_repr i0 pages ;; Ok (acc ++ new)).
Proof.
  unfold rows_of_pages.
  revert i0 acc. induction pages as [|p pages IH]; intros i0 acc;
    cbn [enumerate_from for_each].
  - cbn [bind]. now rewrite app_nil_r.
  - unfold page_step at 1 3.
    destruct (get_drawing_number p (page_width p) (page_height p)) as [dn|e];
      cbn [bind]; [|reflexivity].
    rewrite (annot_loop_acc i0 dn (page_annots p) acc).
    destruct (for_each (annot_step float_repr i0 dn) (page_annots p) []) as [new1|e];
      cbn [bind]; [|reflexivity].
    rewrite (IH (i0 + 1) (acc ++ new1)), (IH (i0 + 1) new1).
    destruct (for_each (page_step float_repr) (enumerate_from (i0 + 1) pages) []);
      cbn [bind]; [now rewrite app_assoc | reflexivity].
Qed.

(** X12. Pages are processed one after the other without shared state:
    the rows of [doc ++ doc'] are the rows of [doc] followed by the rows of
    the pages of [doc'] numbered on from the length of [doc], and an
    exception in [doc] comes before one in [doc']. *)
Theorem main_extract_app (doc doc' : list Page) :
  main_extract float_repr (doc ++ doc')
  = (rows <- main_extract float_repr doc ;;
     rows' <- rows_of_pages float_repr (Z.of_nat (List.length doc)) doc' ;;
     Ok (rows ++ rows')).
Proof.
  unfold main_extract, enumerate.
  rewrite enumerate_from_app, for_each_app. cbn [Z.add].
  destruct (for_each (page_step float_repr) (enumerate_from 0 doc) []) as [rows|e];
    cbn [bind]; [|reflexivity].
  apply page_loop_acc.
Qed.
End Report.

(** ** Page numbers *)

Lemma StronglySorted_app (l1 l2 : list Z) :
  StronglySorted Z.le l1 -> StronglySorted Z.le l2 ->
  (forall x y, In x l1 -> In y l2 -> x <= y) ->
  StronglySorted Z.le (l1 ++ l2).
Proof.
  intros H1 H2 H12. induction H1 as [|x l1 Hl1 IH Hx]; cbn [app]; [exact H2|].
  constructor.
  - apply IH. intros a b Ha Hb. apply H12; [now right | exact Hb].
  - apply Forall_app. split; [exact Hx|].
    apply Forall_forall. intros y Hy. apply H12; [now left | exact Hy].
Qed.

Lemma StronglySorted_constant (v : Z) (l : list Z) :
  (forall x, In x l -> x = v) -> StronglySorted Z.le l.
Proof.
  induction l as [|x l IH]; intros H; constructor.
  - apply IH. intros y Hy. apply H. now right.
  - apply Forall_forall. intros y Hy.
    rewrite (H x (or_introl eq_refl)), (H y (or_intror Hy)). lia.
Qed.

Lemma surviving_pages_sorted (pages : list Page) (i0 : Z) :
  StronglySorted Z.le
    (map (fun ipa : Z * Page * Annot => fst (fst ipa) + 1)
       (flat_map (fun ip : Z * Page =>
                    map (fun a => (fst ip, snd ip, a))
                      (filter has_content (page_annots (snd ip))))
          (enumerate_from i0 pages))).
Proof.
  revert i0. induction pages as [|p pages IH]; intros i0;
    cbn [enumerate_from flat_map map]; [constructor|].
  rewrite map_app. apply StronglySorted_app.
  - apply (StronglySorted_constant (i0 + 1)). intros x Hx.
    apply in_map_iff in Hx. destruct Hx as [[[i q] a] [<- Hin]].
    apply in_map_iff in Hin. destruct Hin as [a' [Heq _]].
    injection Heq as <- _ _. reflexivity.
  - apply IH.
  - intros x y Hx Hy.
    apply in_map_iff in Hx. destruct Hx as [[[i q] a] [<- Hin]].
    apply in_map_iff in Hin. destruct Hin as [a' [Heq _]].
    injection Heq as <- _ _. cbn [fst snd].
    apply in_map_iff in Hy. destruct Hy as [[[j q'] b] [<- Hin]].
    apply in_flat_map in Hin. destruct Hin as [[j' q''] [Hj Hb]].
    apply in_map_iff in Hb. destruct Hb as [b' [Heq _]].
    cbn [fst snd] in Heq. injection Heq as <- _ _.
    apply enumerate_from_In in Hj. cbn [fst]. lia.
Qed.

Section PageNumbers.
Variable float_repr : float -> pystr.

(** X10. Page numbers are 1-based positions in the document: every row
    carries a page number between 1 and the number of pages, and along the
    rows the page numbers never decrease. *)
Theorem row_pages_in_range_and_sorted (doc : list Page) (rows : list Row) :
  main_extract float_repr doc = Ok rows ->
  Forall (fun r => 1 <= row_page r <= Z.of_nat (List.length doc)) rows
  /\ StronglySorted Z.le (map row_page rows).
Proof.
  intros H. unfold main_extract, enumerate in H.
  destruct (page_loop_spec float_repr _ _ _ _ H) as [new [Hnil Hnew]].
  cbn [app] in Hnil. subst new. split.
  - apply Forall_forall. intros r Hr.
    destruct (Forall2_In_right _ _ _ Hnew r Hr) as [[[i p] a] [Hin [dn [_ Hb]]]].
    destruct Hb as [Hpage _].
    apply in_flat_map in Hin. destruct Hin as [[j q] [Hj Ha]].
    apply in_map_iff in Ha. destruct Ha as [a' [Heq _]].
    cbn [fst snd] in Heq. injection Heq as <- _ _.
    apply enumerate_from_In in Hj. lia.
  - replace (map row_page rows)
      with (map (fun ipa : Z * Page * Annot => fst (fst ipa) + 1)
              (flat_map (fun ip : Z * Page =>
                           map (fun a => (fst ip, snd ip, a))
                             (filter has_content (page_annots (snd ip))))
                 (enumerate_from 0 doc))).
    + apply surviving_pages_sorted.
    + clear H. induction Hnew as [|[[i p] a] r l rows' Hr _ IH]; cbn [map]; [reflexivity|].
      destruct Hr as [dn [_ [Hpage _]]]. cbn [fst]. now rewrite IH, Hpage.
Qed.
End PageNumbers.

(** ** The further properties at sample inputs *)

Lemma rgb_to_hex_code_iff_bytes_sample :
  exists h,
    rgb_to_hex sample_repr (Some (mk_pyseq PyTuple [ftwo; fzero; fone])) = Ok h
    /\ (is_hex_code h = true <-> 0 <= 510 <= 255 /\ 0 <= 0 <= 255 /\ 0 <= 255 <= 255).
Proof.
  apply (rgb_to_hex_code_iff_bytes sample_repr PyTuple ftwo fzero fone 510 0 255);
    vm_compute; reflexivity.
Defined.

Lemma hex_code_round_trip_sample :
  exists rgb h r g b,
    list_comprehension (fun c => to_int (mul c f255))
      (seq_items (mk_pyseq PyList [fone; fhalf; fzero])) = Ok rgb
    /\ rgb_to_hex sample_repr (Some (mk_pyseq PyList [fone; fhalf; fzero])) = Ok h
    /\ decode_hex_code h = Some (r, g, b)
    /\ (rgb = [r; g; b] \/ (rgb = [r] /\ g = r /\ b = r)).
Proof.
  apply (hex_code_round_trip sample_repr (mk_pyseq PyList [fone; fhalf; fzero])).
  - right. reflexivity.
  - repeat constructor; vm_compute; reflexivity.
Defined.

Lemma color_name_by_bytes_sample :
  exists h,
    rgb_to_hex sample_repr (Some (mk_pyseq PyTuple [fone; fzero; fzero])) = Ok h
    /\ (color_name_of h = lit "赤" <-> (255, 0, 0) = (255, 0, 0))
    /\ (color_name_of h = lit "青" <-> (255, 0, 0) = (0, 0, 255))
    /\ (color_name_of h = lit "黒" <-> (255, 0, 0) = (0, 0, 0))
    /\ (color_name_of h = lit "その他" <->
        (255, 0, 0) <> (255, 0, 0) /\ (255, 0, 0) <> (0, 0, 255)
        /\ (255, 0, 0) <> (0, 0, 0)).
Proof.
  apply (color_name_by_bytes sample_repr PyTuple fone fzero fzero 255 0 0);
    try (vm_compute; reflexivity); lia.
Defined.

Lemma drawing_number_trimmed_sample :
  exists s first last,
    select_drawing_number [blk_blank; blk_title] = Ok s
    /\ hd_error s = Some first /\ isspace first = false
    /\ hd_error (rev s) = Some last /\ isspace last = false.
Proof.
  apply (drawing_number_trimmed [blk_blank; blk_title] blk_title).
  - right. left. reflexivity.
  - vm_compute. reflexivity.
Defined.

Lemma selection_order_independent_sample :
  select_drawing_number [blk_scale; blk_title; blk_left]
  = select_drawing_number [blk_left; blk_scale; blk_title].
Proof.
  apply (selection_order_independent
           [blk_scale; blk_title; blk_left] [blk_left; blk_scale; blk_title]).
  - intros b Hb _. each_block Hb.
  - intros b. cbn [In]. tauto.
  - intros b c Hb Hc _ _ Hk. cbn [In] in Hb, Hc.
    destruct Hb as [<-|[<-|[<-|[]]]]; destruct Hc as [<-|[<-|[<-|[]]]];
      try reflexivity; vm_compute in Hk; discriminate Hk.
Defined.

Lemma row_pages_in_range_and_sorted_sample :
  exists rows,
    main_extract sample_repr [page_one; page_two] = Ok rows
    /\ Forall (fun r => 1 <= row_page r <= Z.of_nat (List.length [page_one; page_two])) rows
    /\ StronglySorted Z.le (map row_page rows).
Proof.
  eexists. split; [vm_compute; reflexivity|].
  apply (row_pages_in_range_and_sorted sample_repr [page_one; page_two]).
  vm_compute. reflexivity.
Defined.

(** An annotation whose colour has a NaN channel stops the extraction when
    it has content, and is passed over when it has none. *)
Example nan_channel_stops_extraction :
  main_extract sample_repr [mk_page (of_int 600) (of_int 800) (fun _ => []) [annot_red; annot_nan]]
  = Raise ValueError
  /\ main sample_repr
       (Some (lit "plan.pdf",
              [mk_page (of_int 600) (of_int 800) (fun _ => []) [annot_nan_silent]]))
     = Ok NoCommentWarning.
Proof. split; vm_compute; reflexivity. Qed.
